(** * mav_trajectory_generation: waypoint node and trajectory visualization

    A shallow embedding of
      - [mav_trajectory_generation_ros/src/waypoint_node.cpp] ([waycb] and
        [main]: vertex construction, solve, marker publication, the loop),
      - the visualization source ([drawMavTrajectoryWithMavMarker],
        [drawVertices], [internal::appendMarkers]),
      - the offboard setpoint node [xy_offb_node] (its warm-up and main
        loop),
    together with the properties of the design document that concern them.

    Conventions.  C++ [double] is idealised as a real number ([R]);
    rounding of [double] arithmetic is not modelled.  Arithmetic on a C++
    [float] is not idealised: the one [float] operation of the sources is
    taken as an uninterpreted function.  A [std::map<int, VectorXd>] is a
    [gmap nat VectorXd]; a [std::vector] is a [list] to which [push_back]
    appends at the end.  Out-parameters are modelled as results; the array
    a drawing function is handed is also an argument, since [drawVertices]
    keeps part of what it held on entry. *)

From Stdlib Require Import Reals Psatz Lia List ZArith String.
From stdpp Require Import base gmap list strings.
Import ListNotations.

(* ===================================================================== *)
(** * Part I: data model *)
(* ===================================================================== *)

(** ** Eigen vectors *)
Module Eigen.
Local Open Scope R_scope.

(** [Eigen::Vector3d]. *)
Record Vector3d := mkVector3d { vx : R; vy : R; vz : R }.

(** [Eigen::Vector3d::Zero()]. *)
Definition Zero3 : Vector3d := mkVector3d 0 0 0.

(** [a - b] and [a + b] on [Vector3d]. *)
Definition sub (a b : Vector3d) : Vector3d :=
  mkVector3d (vx a - vx b) (vy a - vy b) (vz a - vz b).
Definition add (a b : Vector3d) : Vector3d :=
  mkVector3d (vx a + vx b) (vy a + vy b) (vz a + vz b).

(** [v.norm()]: the Euclidean norm. *)
Definition norm (v : Vector3d) : R :=
  sqrt (vx v * vx v + vy v * vy v + vz v * vz v).

(** [Eigen::VectorXd]: a vector whose size is chosen at run time. *)
Definition VectorXd : Type := list R.

(** [Eigen::VectorXd::Zero(n)]. *)
Definition ZeroX (n : nat) : VectorXd := repeat 0 n.

(** The implicit conversion of a [Vector3d] argument to [VectorXd]. *)
Definition toX (v : Vector3d) : VectorXd := [vx v; vy v; vz v].

(** Reading a three-rowed [VectorXd] back into a [Vector3d]. *)
Definition to3 (v : VectorXd) : Vector3d :=
  mkVector3d (nth 0 v 0) (nth 1 v 0) (nth 2 v 0).

End Eigen.

(** ** ROS messages *)
Module geometry_msgs.
Record Point := mkPoint { x : R; y : R; z : R }.
Record Quaternion := mkQuaternion { qx : R; qy : R; qz : R; qw : R }.
Record Pose := mkPose { position : Point; orientation : Quaternion }.
(** [geometry_msgs::PoseArray], reduced to its [poses] vector: the header
    is never read by the node. *)
Record PoseArray := mkPoseArray { poses : list Pose }.

Definition Point_default : Point := mkPoint 0 0 0.
Definition Pose_default : Pose :=
  mkPose Point_default (mkQuaternion 0 0 0 0).
End geometry_msgs.

Module std_msgs.
(** [ros::Time], as a number of nanoseconds. *)
Definition Time : Type := Z.
Record Header := mkHeader { frame_id : string; stamp : Time }.
Definition Header_default : Header := mkHeader "" 0%Z.
Record ColorRGBA := mkColorRGBA { r : R; g : R; b : R; a : R }.
End std_msgs.

Module visualization_msgs.
Import geometry_msgs std_msgs.

(** The marker types and actions the sources use. *)
Inductive MarkerType := ARROW | LINE_STRIP | OTHER_TYPE (code : nat).
Inductive MarkerAction := ADD | OTHER_ACTION (code : nat).

Record Marker := mkMarker {
  header : Header;
  ns : string;
  id : nat;
  type : MarkerType;
  action : MarkerAction;
  scale_x : R;
  color : ColorRGBA;
  lifetime : R;
  points : list Point
}.

(** A default-constructed [Marker]. *)
Definition Marker_default : Marker :=
  mkMarker Header_default "" 0 ARROW ADD 0%R (mkColorRGBA 0 0 0 0) 0%R [].

(** [visualization_msgs::MarkerArray], i.e. its [markers] vector. *)
Definition MarkerArray : Type := list Marker.

(** Field updates, as the assignments [marker.f = v] of the sources. *)
Definition set_header (h : Header) (m : Marker) : Marker :=
  mkMarker h (ns m) (id m) (type m) (action m) (scale_x m) (color m)
           (lifetime m) (points m).
Definition set_ns (s : string) (m : Marker) : Marker :=
  mkMarker (header m) s (id m) (type m) (action m) (scale_x m) (color m)
           (lifetime m) (points m).
Definition set_id (i : nat) (m : Marker) : Marker :=
  mkMarker (header m) (ns m) i (type m) (action m) (scale_x m) (color m)
           (lifetime m) (points m).
Definition set_type (t : MarkerType) (m : Marker) : Marker :=
  mkMarker (header m) (ns m) (id m) t (action m) (scale_x m) (color m)
           (lifetime m) (points m).
Definition set_action (a : MarkerAction) (m : Marker) : Marker :=
  mkMarker (header m) (ns m) (id m) (type m) a (scale_x m) (color m)
           (lifetime m) (points m).
Definition set_scale_x (s : R) (m : Marker) : Marker :=
  mkMarker (header m) (ns m) (id m) (type m) (action m) s (color m)
           (lifetime m) (points m).
Definition set_color (c : ColorRGBA) (m : Marker) : Marker :=
  mkMarker (header m) (ns m) (id m) (type m) (action m) (scale_x m) c
           (lifetime m) (points m).
Definition set_lifetime (l : R) (m : Marker) : Marker :=
  mkMarker (header m) (ns m) (id m) (type m) (action m) (scale_x m)
           (color m) l (points m).
Definition push_point (p : Point) (m : Marker) : Marker :=
  mkMarker (header m) (ns m) (id m) (type m) (action m) (scale_x m)
           (color m) (lifetime m) (points m ++ [p]).
End visualization_msgs.

(** ** Derivative orders and vertices *)
Module derivative_order.
(** Modelled from the spec: the header that declares
    [mav_trajectory_generation::derivative_order] is not among the
    sources.  An order counts derivatives of position, so position is
    order 0 and "all derivatives from 0 up to the optimize order" for
    acceleration are orders 0, 1 and 2. *)
Definition POSITION : nat := 0.
Definition VELOCITY : nat := 1.
Definition ACCELERATION : nat := 2.
Definition JERK : nat := 3.
Definition SNAP : nat := 4.
End derivative_order.

Module Vertex.
Import Eigen.

(** Modelled from the spec: [vertex.h]/[vertex.cpp] are not among the
    sources.  A vertex "holds, per derivative order, an optional
    fixed-value constraint" and has a dimensionality [D]. *)
Record t := mk { D : nat; constraints : gmap nat VectorXd }.

(** Modelled from the spec: the constructor [Vertex(dimension)], a vertex
    of that dimension with every derivative free. *)
Definition new (dimension : nat) : t := mk dimension ∅.

(** Modelled from the spec: [addConstraint(order, value)] fixes the value
    of one derivative order and leaves the others as they are. *)
Definition addConstraint (v : t) (derivative : nat) (value : VectorXd) : t :=
  mk (D v) (<[derivative := value]> (constraints v)).

(** Modelled from the spec: [makeStartOrEnd(p, up_to)] builds a boundary
    vertex: "all derivatives from 0 up to the optimize order are
    constrained (position = waypoint, higher derivatives = zero)". *)
Definition makeStartOrEnd (v : t) (constraint : VectorXd)
    (up_to_derivative : nat) : t :=
  fold_left (fun v i => addConstraint v i (ZeroX (D v)))
            (seq 1 up_to_derivative)
            (addConstraint v derivative_order.POSITION constraint).

(** Modelled from the spec: [hasConstraint] and [getConstraint] read the
    optional constraint of one derivative order. *)
Definition getConstraint (v : t) (derivative : nat) : option VectorXd :=
  constraints v !! derivative.
Definition hasConstraint (v : t) (derivative : nat) : bool :=
  match getConstraint v derivative with Some _ => true | None => false end.
End Vertex.

Module mav_msgs.
Import Eigen geometry_msgs.

(** [mav_msgs::EigenTrajectoryPoint]: one sample of the flat state. *)
Record EigenTrajectoryPoint := mkEigenTrajectoryPoint {
  position_W : Vector3d;
  velocity_W : Vector3d;
  acceleration_W : Vector3d;
  orientation_W_B : Quaternion
}.

(** [mav_msgs::EigenMavState], the fields the drawing code reads. *)
Record EigenMavState := mkEigenMavState {
  mav_position_W : Vector3d;
  mav_orientation_W_B : Quaternion
}.
End mav_msgs.

(* ===================================================================== *)
(** * Part II: the visualization source *)
(* ===================================================================== *)

Module mav_viz.
Import Eigen geometry_msgs std_msgs visualization_msgs mav_msgs.

(** The drawing helpers of [mav_visualization] that the source calls and
    that are declared outside the sources at hand.  They are taken as an
    interface; nothing is assumed about what they draw. *)
Class Helpers := {
  MarkerGroup : Type;
  (** [mav_viz::MarkerGroup dummy_marker;] *)
  MarkerGroup_default : MarkerGroup;
  (** [mav_msgs::EigenMavStateFromEigenTrajectoryPoint(flat_state, &s)] *)
  EigenMavStateFromEigenTrajectoryPoint :
    EigenTrajectoryPoint -> EigenMavState;
  (** [drawAxesArrows(markers, position, orientation, scale, diameter)] *)
  drawAxesArrows :
    MarkerArray -> Vector3d -> Quaternion -> R -> R -> MarkerArray;
  (** [drawArrow(marker, from, to, color, diameter)] *)
  drawArrow : Marker -> Vector3d -> Vector3d -> ColorRGBA -> R -> Marker;
  (** [group.transform(position, orientation)] *)
  transform : MarkerGroup -> Vector3d -> Quaternion -> MarkerGroup;
  (** [group.getMarkers(markers, scale, append)] *)
  getMarkers : MarkerGroup -> MarkerArray -> R -> bool -> MarkerArray
}.

(** [mav_viz::eigenToPoint]. *)
Definition eigenToPoint (v : Vector3d) : Point :=
  mkPoint (vx v) (vy v) (vz v).

(** [mav_visualization::createColorRGBA]. *)
Definition createColorRGBA (r g b a : R) : ColorRGBA := mkColorRGBA r g b a.
End mav_viz.

Module ros_visualization.
Import Eigen geometry_msgs std_msgs visualization_msgs mav_msgs mav_viz.
Local Open Scope R_scope.

(** Modelled from the spec: [positionDerivativeToString] is declared
    outside the sources; the marker categories are "derivative-named
    categories for velocity and acceleration arrows". *)
Definition positionDerivativeToString (derivative : nat) : string :=
  match derivative with
  | 0%nat => "position"
  | 1%nat => "velocity"
  | 2%nat => "acceleration"
  | 3%nat => "jerk"
  | 4%nat => "snap"
  | _ => "invalid"
  end.

(** Modelled from the spec: [setMarkerProperties] is declared in
    [ros_visualization.h], which is not among the sources.  It stamps the
    header (whose [frame_id] is the "reference frame identifier" of the
    visualization output), the lifetime and the action on every marker of
    the array and numbers the markers. *)
Definition setMarkerProperties (header : Header) (life_time : R)
    (action : MarkerAction) (markers : MarkerArray) : MarkerArray :=
  imap (fun count marker =>
          set_id count
            (set_lifetime life_time
               (set_action action (set_header header marker))))
       markers.

(** [internal::appendMarkers]: every marker of [markers_to_insert] is
    pushed on [marker_array], renamed to [marker_namespace] unless that
    is empty. *)
Definition appendMarkers (markers_to_insert : MarkerArray)
    (marker_namespace : string) (marker_array : MarkerArray) : MarkerArray :=
  fold_left
    (fun marker_array marker =>
       marker_array ++
         [if String.eqb marker_namespace "" then marker
          else set_ns marker_namespace marker])
    markers_to_insert marker_array.

Section Drawing.
Context {helpers : Helpers}.

(** The state the sampling loop of [drawMavTrajectoryWithMavMarker]
    carries from one sample to the next.  [emitted] is a ghost field:
    one flag per sample processed so far, [true] when the sample took
    the branch that pushes the pose, acceleration and velocity
    markers. *)
Record LoopState := mkLoopState {
  accumulated_distance : R;
  last_position : Vector3d;
  markers : MarkerArray;
  line_strip : Marker;
  emitted : list bool
}.

(** The body of the [if (accumulated_distance > distance)] branch: the
    markers pushed for one sample. *)
Definition emit (flat_state : EigenTrajectoryPoint)
    (additional_marker : MarkerGroup) (marker_array : MarkerArray)
    : MarkerArray :=
  let mav_state := EigenMavStateFromEigenTrajectoryPoint flat_state in
  let axes_arrows :=
    drawAxesArrows [] (mav_position_W mav_state)
                   (mav_orientation_W_B mav_state) 0.3 0.3 in
  let marker_array := appendMarkers axes_arrows "pose" marker_array in
  let arrow :=
    drawArrow Marker_default (position_W flat_state)
      (add (position_W flat_state) (acceleration_W flat_state))
      (createColorRGBA (190 / 255) (81 / 255) (80 / 255) 1) 0.3 in
  let arrow :=
    set_ns (positionDerivativeToString derivative_order.ACCELERATION)
           arrow in
  let marker_array := marker_array ++ [arrow] in
  let arrow :=
    drawArrow arrow (position_W flat_state)
      (add (position_W flat_state) (velocity_W flat_state))
      (createColorRGBA (80 / 255) (172 / 255) (196 / 255) 1) 0.3 in
  let arrow :=
    set_ns (positionDerivativeToString derivative_order.VELOCITY)
           arrow in
  let marker_array := marker_array ++ [arrow] in
  let tmp_marker :=
    transform additional_marker (mav_position_W mav_state)
              (mav_orientation_W_B mav_state) in
  getMarkers tmp_marker marker_array 1 true.

(** One iteration of [for (size_t i = 0; i < n_samples; ++i)]. *)
Definition loop_body (distance : R) (additional_marker : MarkerGroup)
    (st : LoopState) (flat_state : EigenTrajectoryPoint) : LoopState :=
  let accumulated_distance :=
    accumulated_distance st
    + norm (sub (last_position st) (position_W flat_state)) in
  let last_position := position_W flat_state in
  let line_strip := push_point (eigenToPoint last_position)
                               (line_strip st) in
  if Rgt_dec accumulated_distance distance then
    mkLoopState 0 last_position
      (emit flat_state additional_marker (markers st))
      line_strip (emitted st ++ [true])
  else
    mkLoopState accumulated_distance last_position (markers st)
      line_strip (emitted st ++ [false]).

(** The [line_strip] marker as set up before the loop. *)
Definition line_strip_init : Marker :=
  set_ns "path"
    (set_scale_x 0.01
       (set_color (createColorRGBA 1 0.5 0 1)
          (set_type LINE_STRIP Marker_default))).

(** The loop, from [accumulated_distance = 0], the cursor at
    [Vector3d::Zero()] and the cleared marker array.  The source reads
    [flat_states[i]] for [i < n_samples]; the declarations of both
    names are missing from it, and [n_samples] is taken to be the size
    of [flat_states], the sample sequence of the trajectory. *)
Definition sampling_loop (flat_states : list EigenTrajectoryPoint)
    (distance : R) (additional_marker : MarkerGroup) : LoopState :=
  fold_left (loop_body distance additional_marker) flat_states
            (mkLoopState 0 Zero3 [] line_strip_init []).

(** [drawMavTrajectoryWithMavMarker].  [now] is the value of
    [ros::Time::now()]; the result is the array left in
    [*marker_array], whose previous content is cleared on entry. *)
Definition drawMavTrajectoryWithMavMarker
    (flat_states : list EigenTrajectoryPoint) (distance : R)
    (frame_id : string) (additional_marker : MarkerGroup)
    (now : Time) (marker_array : MarkerArray) : MarkerArray :=
  let st := sampling_loop flat_states distance additional_marker in
  let marker_array := markers st ++ [line_strip st] in
  let header := mkHeader "world" now in
  setMarkerProperties header 0 ADD marker_array.

(** [drawMavTrajectory] (four arguments): forwards with an empty extra
    marker group to the five-argument overload of the same name.  The
    sources do not define that overload, so it is a parameter here,
    [overload], with the clock it may read as an argument. *)
Definition drawMavTrajectory {Trajectory : Type}
    (overload : Trajectory -> R -> string -> MarkerGroup -> Time ->
                MarkerArray -> MarkerArray)
    (trajectory : Trajectory) (distance : R) (frame_id : string)
    (now : Time) (marker_array : MarkerArray) : MarkerArray :=
  overload trajectory distance frame_id MarkerGroup_default now marker_array.
End Drawing.

(** [markers.resize(1)]: keeps the first marker of a non-empty vector and
    default-constructs one in an empty vector. *)
Definition resize1 (markers : MarkerArray) : MarkerArray :=
  match markers with
  | [] => [Marker_default]
  | marker :: _ => [marker]
  end.

(** [markers.front()] after [resize1]. *)
Definition front (markers : MarkerArray) : Marker :=
  hd Marker_default markers.

(** The [for (const Vertex& vertex : vertices)] loop of [drawVertices]:
    [(false, marker)] when a vertex of dimension other than 3 made the
    function return early, [(true, marker)] when the loop ran through. *)
Fixpoint drawVertices_loop (vertices : list Vertex.t) (marker : Marker)
    : bool * Marker :=
  match vertices with
  | [] => (true, marker)
  | vertex :: rest =>
      if negb (Nat.eqb (Vertex.D vertex) 3) then (false, marker)
      else
        match Vertex.getConstraint vertex derivative_order.POSITION with
        | Some position =>
            drawVertices_loop rest
              (push_point (eigenToPoint (to3 position)) marker)
        | None => drawVertices_loop rest marker
        end
  end.

(** [drawVertices]: the returned flag and the array left in
    [*marker_array]. *)
Definition drawVertices (vertices : list Vertex.t) (frame_id : string)
    (now : Time) (marker_array : MarkerArray) : bool * MarkerArray :=
  let marker :=
    set_ns "straight_path"
      (set_scale_x 0.01
         (set_color (createColorRGBA 0.5 1 0 1)
            (set_type LINE_STRIP (front (resize1 marker_array))))) in
  match drawVertices_loop vertices marker with
  | (false, marker) => (false, [marker])
  | (true, marker) =>
      let header := mkHeader frame_id now in
      (true, setMarkerProperties header 0 ADD [marker])
  end.
End ros_visualization.

(* ===================================================================== *)
(** * Part III: the waypoint node *)
(* ===================================================================== *)

Module waypoint_node.
Import Eigen geometry_msgs std_msgs visualization_msgs mav_msgs mav_viz.
Local Open Scope R_scope.

(** The trajectory library the node calls ([estimateSegmentTimes],
    [PolynomialOptimization<N>], [Trajectory]); its code is not among the
    sources.  The calls are taken as an interface.  [setupFromVertices]
    and [solveLinear] report success with a flag, next to the updated
    optimizer object.  The five-argument overload of [drawMavTrajectory],
    which the four-argument one forwards to and the sources do not
    define, is part of the interface as well. *)
Class Library := {
  Segment : Type;
  Trajectory : Type;
  PolynomialOptimization : Type;
  estimateSegmentTimes : list Vertex.t -> R -> R -> R -> list R;
  (** [PolynomialOptimization<N> opt(dimension)] *)
  PolynomialOptimization_new : nat -> nat -> PolynomialOptimization;
  setupFromVertices :
    PolynomialOptimization -> list Vertex.t -> list R -> nat ->
    bool * PolynomialOptimization;
  solveLinear : PolynomialOptimization -> bool * PolynomialOptimization;
  getSegments : PolynomialOptimization -> list Segment;
  getTrajectory : PolynomialOptimization -> Trajectory;
  evaluate : Trajectory -> R -> nat -> VectorXd;
  evaluateRange :
    Trajectory -> R -> R -> R -> nat -> list VectorXd * list R;
  (** [drawMavTrajectory(trajectory, distance, frame_id, additional_marker,
      marker_array)] *)
  drawMavTrajectory_overload :
    forall helpers : Helpers,
      Trajectory -> R -> string -> @MarkerGroup helpers -> Time ->
      MarkerArray -> MarkerArray
}.

Definition dimension : nat := 3.
Definition derivative_to_optimize : nat := derivative_order.ACCELERATION.

(** [way_.poses[i]]; the node only reads indices below [size()]. *)
Definition pose_at (way_ : PoseArray) (i : nat) : Pose :=
  nth i (poses way_) Pose_default.

(** [Eigen::Vector3d(way_.poses[i].position.x, way_.poses[i].position.y, 0)]:
    the third coordinate is the literal [0]. *)
Definition xy0 (way_ : PoseArray) (i : nat) : Vector3d :=
  mkVector3d (x (position (pose_at way_ i))) (y (position (pose_at way_ i))) 0.

(** One iteration of [for (int ii = 1; ii < way_.poses.size() - 1; ii++)]:
    the one [middle] object is constrained again and a copy is pushed. *)
Definition middle_body (way_ : PoseArray)
    (st : Vertex.t * list Vertex.t) (ii : nat) : Vertex.t * list Vertex.t :=
  let middle :=
    Vertex.addConstraint (fst st) derivative_order.POSITION
                         (toX (xy0 way_ ii)) in
  (middle, snd st ++ [middle]).

(** Lines 30-48, inside the guard [way_.poses.size() > 0]: the vertices
    pushed on the empty [vertices] vector.  Under the guard the unsigned
    [size() - 1] does not wrap, and the loop runs for
    [ii = 1, ..., size() - 2].  The node never runs these lines on an
    empty [way_] (see [cycle]); what the definition gives there stands
    for nothing in the source, where [size() - 1] would wrap and
    [poses[0]] would be read out of bounds. *)
Definition build_vertices (way_ : PoseArray) : list Vertex.t :=
  let size := length (poses way_) in
  let start :=
    Vertex.makeStartOrEnd (Vertex.new dimension) (toX (xy0 way_ 0))
                          derivative_to_optimize in
  let vertices := [start] in
  let '(_, vertices) :=
    fold_left (middle_body way_) (seq 1 (size - 1 - 1))
              (Vertex.new dimension, vertices) in
  let end_ :=
    Vertex.makeStartOrEnd (Vertex.new dimension)
                          (toX (xy0 way_ (size - 1)))
                          derivative_to_optimize in
  vertices ++ [end_].

Section Cycle.
Context {helpers : Helpers} {library : Library}.

(** What one pass through the body of [while (ros::ok())] leaves behind:
    the vertices it built, the flags the optimizer calls returned (the
    node drops them) and the marker array handed to
    [vis_pub.publish], if any. *)
Record CycleResult := mkCycleResult {
  vertices : list Vertex.t;
  setup_ok : option bool;
  solve_ok : option bool;
  published : option MarkerArray
}.

(** The body of the [while] loop for the current value of [way_]. *)
Definition cycle (way_ : PoseArray) (now : Time) : CycleResult :=
  if (0 <? length (poses way_))%nat then
    let vertices := build_vertices way_ in
    let v_max := 1 in
    let a_max := 3 in
    let magic_fabian_constant := 6.5 in
    let segment_times :=
      estimateSegmentTimes vertices v_max a_max magic_fabian_constant in
    let N := 10%nat in
    let opt := PolynomialOptimization_new N dimension in
    let '(setup_ok, opt) :=
      setupFromVertices opt vertices segment_times
                        derivative_to_optimize in
    let '(solve_ok, opt) := solveLinear opt in
    let segments := getSegments opt in
    let trajectory := getTrajectory opt in
    let sampling_time := 2 in
    let derivative_order := derivative_order.POSITION in
    let sample := evaluate trajectory sampling_time derivative_order in
    let t_start := 2 in
    let t_end := 10 in
    let dt := 0.01 in
    let '(result, sampling_times) :=
      evaluateRange trajectory t_start t_end dt derivative_order in
    let distance := 1.6 in
    let frame_id := "world"%string in
    let markers :=
      ros_visualization.drawMavTrajectory
        (drawMavTrajectory_overload helpers) trajectory distance frame_id
        now [] in
    mkCycleResult vertices (Some setup_ok) (Some solve_ok) (Some markers)
  else
    mkCycleResult [] None None None.
End Cycle.
End waypoint_node.

(* ===================================================================== *)
(** * Part IV: the loop of the waypoint node *)
(* ===================================================================== *)

Module waypoint_loop.
Import geometry_msgs std_msgs mav_viz waypoint_node.

(** [waycb]: the callback overwrites the global [way_] with the message. *)
Definition waycb (msg : PoseArray) (way_ : PoseArray) : PoseArray := msg.

(** [ros::spinOnce()]: the callback runs once for every message that is
    dispatched, oldest first. *)
Definition spinOnce (dispatched : list PoseArray) (way_ : PoseArray)
    : PoseArray :=
  fold_left (fun way_ msg => waycb msg way_) dispatched way_.

(** What the environment supplies to one pass through the body of
    [while (ros::ok())]: the value of [ros::Time::now()] and the messages
    that [ros::spinOnce()] dispatches at the end of the pass. *)
Record Iteration := mkIteration {
  now : Time;
  dispatched : list PoseArray
}.

(** The global [geometry_msgs::PoseArray way_;], default-constructed. *)
Definition way_initial : PoseArray := mkPoseArray [].

Section Loop.
Context {helpers : Helpers} {library : Library}.

(** The passes of the [while] loop, one per element of [iterations], from
    the given value of [way_]: the body runs on the current [way_], then
    [spinOnce] lets the callback update it. *)
Fixpoint iterate (iterations : list Iteration) (way_ : PoseArray)
    : list CycleResult :=
  match iterations with
  | [] => []
  | iteration :: rest =>
      cycle way_ (now iteration)
        :: iterate rest (spinOnce (dispatched iteration) way_)
  end.

(** [main], for as many passes as [ros::ok()] allows. *)
Definition main (iterations : list Iteration) : list CycleResult :=
  iterate iterations way_initial.
End Loop.
End waypoint_loop.

(* ===================================================================== *)
(** * Part IV-a: the offboard setpoint node *)
(* ===================================================================== *)

Module offb_node.
Import geometry_msgs std_msgs.
Local Open Scope R_scope.

(** [mavros_msgs::State], the fields the node reads. *)
Record State := mkState {
  connected : bool;
  armed : bool;
  mode : string
}.

(** [#define PI 3.141] *)
Definition PI : R := 3.141.

(** [ros::Duration(5.0)], in the nanoseconds of [Time]. *)
Definition five_seconds : Z := 5000000000.

(** What the environment supplies to one pass through the main loop: a
    value for each read of [ros::Time::now()] and the outcome of each
    service call.  A pass consumes only the ones on its path. *)
Record Env := mkEnv {
  clock_arm_check : Time;
  arm_call : bool;
  arm_success : bool;
  clock_arm_stamp : Time;
  clock_mode_check : Time;
  mode_call : bool;
  mode_sent : bool;
  clock_mode_stamp : Time
}.

(** The variables of [main] that live across passes.  [pose] is the
    position of the [PoseStamped]; [theta] holds the value of the [float]
    variable, a real number that only [add_hundredth] advances. *)
Record Loop := mkLoop {
  last_request : Time;
  flag1 : bool;
  flag2 : bool;
  theta : R;
  pose : Point
}.

(** What a pass does that is visible outside: the service it called, if
    any, whether the call succeeded, and the setpoint it published, if
    any.  [next] is the state for the next pass. *)
Record StepOut := mkStepOut {
  next : Loop;
  arm_requested : bool;
  arm_succeeded : bool;
  mode_requested : bool;
  mode_succeeded : bool;
  setpoint : option Point
}.

(** The state when the main loop is entered: [last_request] holds the
    time read just before, both flags are [false], [theta] is 0 and the
    pose is (0, 0, 2). *)
Definition loop_initial (start : Time) : Loop :=
  mkLoop start false false 0 (mkPoint 0 0 2).

(** Arithmetic on the [float] variable [theta].  The statement
    [theta += 1.0/100] converts [theta] to [double], adds the [double]
    quotient and rounds the sum back to [float]; [add_hundredth] is the
    value it leaves in [theta] as a function of the value it finds.  The
    rounding is not idealised away: the function is left uninterpreted. *)
Class FloatArith := { add_hundredth : R -> R }.

Section Main.
Context {float_arith : FloatArith}.

(** The second half of the loop body: the setpoint on the sine curve is
    published when both flags are set, and [theta] is advanced. *)
Definition publish_setpoint (st : Loop) : Loop * option Point :=
  if flag1 st && flag2 st then
    let pose :=
      mkPoint (theta st) (6 * sin (theta st * PI / 6)) (z (pose st)) in
    (mkLoop (last_request st) (flag1 st) (flag2 st)
            (add_hundredth (theta st)) pose,
     Some pose)
  else (st, None).

(** One pass through [while (ros::ok())] of the node [xy_offb_node]. *)
Definition step (current_state : State) (env : Env) (st : Loop) : StepOut :=
  if negb (armed current_state)
     && (five_seconds <? clock_arm_check env - last_request st)%Z
  then
    let succeeded := arm_call env && arm_success env in
    let flag2 := if succeeded then true else flag2 st in
    let st :=
      mkLoop (clock_arm_stamp env) (flag1 st) flag2 (theta st) (pose st) in
    let '(st, published) := publish_setpoint st in
    mkStepOut st true succeeded false false published
  else if negb (String.eqb (mode current_state) "OFFBOARD")
          && (five_seconds <? clock_mode_check env - last_request st)%Z
  then
    let succeeded := mode_call env && mode_sent env in
    let flag1 := if succeeded then true else flag1 st in
    let st :=
      mkLoop (clock_mode_stamp env) flag1 (flag2 st) (theta st) (pose st) in
    let '(st, published) := publish_setpoint st in
    mkStepOut st false false true succeeded published
  else
    let '(st, published) := publish_setpoint st in
    mkStepOut st false false false false published.

(** The passes of the main loop, one per element of [inputs]: the vehicle
    state the callback last stored and the environment of the pass. *)
Fixpoint run (inputs : list (State * Env)) (st : Loop) : list StepOut :=
  match inputs with
  | [] => []
  | (current_state, env) :: rest =>
      let out := step current_state env st in
      out :: run rest (next out)
  end.
End Main.

(** The loop [for (int i = 250; ros::ok() && i > 0; --i)] that streams the
    pose before the main loop: [ok k] is the value of [ros::ok()] at its
    [k]-th evaluation. *)
Fixpoint warm_up (ok : nat -> bool) (k i : nat) (pose : Point) : list Point :=
  match i with
  | O => []
  | S i' => if ok k then pose :: warm_up ok (S k) i' pose else []
  end.

(** The setpoints streamed before the main loop. *)
Definition initial_setpoints (ok : nat -> bool) : list Point :=
  warm_up ok 0 250 (mkPoint 0 0 2).
End offb_node.

(* ===================================================================== *)
(** * Part V: specifications and concrete inputs *)
(* ===================================================================== *)

Module VertexBuilderSpec.
Import Eigen geometry_msgs waypoint_node.

(** The waypoint as the message carries it, [z] included. *)
Definition xyz (way_ : PoseArray) (i : nat) : Vector3d :=
  mkVector3d (x (position (pose_at way_ i))) (y (position (pose_at way_ i)))
             (z (position (pose_at way_ i))).

(** A boundary vertex at [p]: position fixed to [p], every derivative
    from 1 up to [order] fixed to zero, nothing beyond. *)
Definition boundary_at (order : nat) (p : Vector3d) (v : Vertex.t) : Prop :=
  Vertex.D v = dimension /\
  Vertex.getConstraint v derivative_order.POSITION = Some (toX p) /\
  (forall d, (1 <= d <= order)%nat ->
             Vertex.getConstraint v d = Some (ZeroX dimension)) /\
  (forall d, (order < d)%nat -> Vertex.getConstraint v d = None).

(** A vertex that carries a position constraint [p] and no other. *)
Definition position_only_at (p : Vector3d) (v : Vertex.t) : Prop :=
  Vertex.D v = dimension /\
  Vertex.getConstraint v derivative_order.POSITION = Some (toX p) /\
  (forall d, d <> derivative_order.POSITION ->
             Vertex.getConstraint v d = None).

(** The contract of the vertex builder, for a given reading [target] of
    the position a waypoint stands for: one vertex per waypoint at the
    same index, boundary vertices first and last, position-only vertices
    in between. *)
Definition builder_contract (target : PoseArray -> nat -> Vector3d)
    (way_ : PoseArray) : Prop :=
  let vs := build_vertices way_ in
  let n := length (poses way_) in
  length vs = n /\
  forall i v, vs !! i = Some v ->
    if decide (i = 0%nat \/ i = (n - 1)%nat)
    then boundary_at derivative_to_optimize (target way_ i) v
    else position_only_at (target way_ i) v.

(** The interior vertex the loop pushes for index [ii]. *)
Definition interior (way_ : PoseArray) (ii : nat) : Vertex.t :=
  Vertex.mk dimension {[ derivative_order.POSITION := toX (xy0 way_ ii) ]}.

(** The boundary vertex the node builds for index [i]. *)
Definition boundary (way_ : PoseArray) (i : nat) : Vertex.t :=
  Vertex.makeStartOrEnd (Vertex.new dimension) (toX (xy0 way_ i))
                        derivative_to_optimize.
End VertexBuilderSpec.

Module Examples.
Import Eigen geometry_msgs std_msgs visualization_msgs mav_msgs mav_viz.
Import waypoint_node.
Local Open Scope R_scope.

Definition q0 : Quaternion := mkQuaternion 0 0 0 1.

(** Two waypoints, the first one at height 5. *)
Definition way_two : PoseArray :=
  mkPoseArray [mkPose (mkPoint 1 2 5) q0; mkPose (mkPoint 3 4 0) q0].

(** Three waypoints on a line, as in the example of the design document. *)
Definition way_three : PoseArray :=
  mkPoseArray [mkPose (mkPoint 0 0 0) q0; mkPose (mkPoint 5 0 0) q0;
               mkPose (mkPoint 10 0 0) q0].

(** A single waypoint. *)
Definition way_one : PoseArray := mkPoseArray [mkPose (mkPoint 1 2 0) q0].

(** No waypoint. *)
Definition way_none : PoseArray := mkPoseArray [].

(** A stand-in for the drawing helpers: one arrow for the pose, an arrow
    from [from] to [to], and an extra marker group that draws nothing. *)
Definition plain_helpers : Helpers := {|
  MarkerGroup := unit;
  MarkerGroup_default := tt;
  EigenMavStateFromEigenTrajectoryPoint :=
    fun s => mkEigenMavState (position_W s) (orientation_W_B s);
  drawAxesArrows :=
    fun markers position _ _ _ =>
      markers ++ [push_point (eigenToPoint position)
                             (set_type ARROW Marker_default)];
  drawArrow :=
    fun marker from to color _ =>
      mkMarker (header marker) (ns marker) (id marker) ARROW ADD
               (scale_x marker) color (lifetime marker)
               [eigenToPoint from; eigenToPoint to];
  transform := fun group _ _ => group;
  getMarkers := fun _ markers _ _ => markers
|}.

(** A sample at rest at [p]. *)
Definition sample_at (p : Vector3d) : EigenTrajectoryPoint :=
  mkEigenTrajectoryPoint p Zero3 Zero3 q0.

(** A stand-in for the trajectory library: the set-up succeeds, the linear
    solve reports [solve_flag], and the trajectory is drawn by
    [drawMavTrajectoryWithMavMarker] through the position constraints of
    the vertices. *)
Definition stand_in_library (solve_flag : bool) : Library := {|
  Segment := unit;
  Trajectory := list Vertex.t;
  PolynomialOptimization := list Vertex.t;
  estimateSegmentTimes := fun vertices _ _ _ => repeat 1 (length vertices - 1);
  PolynomialOptimization_new := fun _ _ => [];
  setupFromVertices := fun _ vertices _ _ => (true, vertices);
  solveLinear := fun opt => (solve_flag, opt);
  getSegments := fun opt => repeat tt (length opt - 1);
  getTrajectory := fun opt => opt;
  evaluate := fun _ _ _ => ZeroX 3;
  evaluateRange := fun _ _ _ _ _ => ([], []);
  drawMavTrajectory_overload :=
    fun helpers trajectory distance frame_id additional_marker now
        marker_array =>
      ros_visualization.drawMavTrajectoryWithMavMarker
        (omap (fun v =>
                 match Vertex.getConstraint v derivative_order.POSITION with
                 | Some p => Some (sample_at (to3 p))
                 | None => None
                 end) trajectory)
        distance frame_id additional_marker now marker_array
|}.

(** The stand-in whose solve succeeds, and the one whose solve fails. *)
Definition working_library : Library := stand_in_library true.
Definition failing_library : Library := stand_in_library false.
End Examples.

Module CycleSpec.
Import waypoint_node.

(** The library [library] with the success flags of [setupFromVertices] and
    [solveLinear] replaced by the given ones; everything the calls compute
    is kept. *)
Definition with_flags (setup_flag solve_flag : bool) (library : Library)
    : Library := {|
  Segment := Segment;
  Trajectory := Trajectory;
  PolynomialOptimization := PolynomialOptimization;
  estimateSegmentTimes := estimateSegmentTimes;
  PolynomialOptimization_new := PolynomialOptimization_new;
  setupFromVertices :=
    fun opt vertices segment_times derivative =>
      (setup_flag,
       snd (setupFromVertices opt vertices segment_times derivative));
  solveLinear := fun opt => (solve_flag, snd (solveLinear opt));
  getSegments := getSegments;
  getTrajectory := getTrajectory;
  evaluate := evaluate;
  evaluateRange := evaluateRange;
  drawMavTrajectory_overload := drawMavTrajectory_overload
|}.

(** A stage of the cycle failed: one of the optimizer calls returned
    [false]. *)
Definition stage_failed (res : CycleResult) : Prop :=
  setup_ok res = Some false \/ solve_ok res = Some false.
End CycleSpec.

Module DecimatorSpec.
Import Eigen geometry_msgs std_msgs visualization_msgs mav_msgs mav_viz.
Local Open Scope R_scope.

(** Equality of positions is decidable (classically, as for [R]). *)
#[global] Instance Vector3d_eq_dec : EqDecision Vector3d.
Proof.
  intros [a1 a2 a3] [b1 b2 b3].
  destruct (Req_dec_T a1 b1) as [->|H1]; [|right; congruence].
  destruct (Req_dec_T a2 b2) as [->|H2]; [|right; congruence].
  destruct (Req_dec_T a3 b3) as [->|H3]; [|right; congruence].
  left; reflexivity.
Defined.

(** The positions of a sample sequence. *)
Definition positions (flat_states : list EigenTrajectoryPoint)
    : list Vector3d :=
  map position_W flat_states.

(** The emission flags of the loop as a function of the positions alone:
    the accumulator [acc], the cursor and the remaining positions. *)
Fixpoint trace (distance acc : R) (cursor : Vector3d) (ps : list Vector3d)
    : list bool :=
  match ps with
  | [] => []
  | p :: ps =>
      if Rgt_dec (acc + norm (sub cursor p)) distance
      then true :: trace distance 0 p ps
      else false :: trace distance (acc + norm (sub cursor p)) p ps
  end.

(** The length of the polyline through [ps]: the sum of the distances
    between successive positions. *)
Fixpoint path_length (ps : list Vector3d) : R :=
  match ps with
  | p :: (q :: _) as rest => norm (sub p q) + path_length rest
  | _ => 0
  end.

(** The positions from index [i] to index [k], both included. *)
Definition between (i k : nat) (ps : list Vector3d) : list Vector3d :=
  take (S (k - i)) (drop i ps).

(** One flag per position: does it differ from the cursor, which is the
    position before it ([cursor] for the first one)? *)
Fixpoint moved_flags (cursor : Vector3d) (ps : list Vector3d) : list bool :=
  match ps with
  | [] => []
  | p :: ps => bool_decide (p <> cursor) :: moved_flags p ps
  end.

(** The number of samples that emitted markers. *)
Fixpoint emission_count (flags : list bool) : nat :=
  match flags with
  | [] => 0
  | true :: flags => S (emission_count flags)
  | false :: flags => emission_count flags
  end.
End DecimatorSpec.

Module DecimatorExamples.
Import Eigen mav_msgs Examples.
Local Open Scope R_scope.

(** Two samples at the same place. *)
Definition still_samples : list EigenTrajectoryPoint :=
  [sample_at (mkVector3d 1 0 0); sample_at (mkVector3d 1 0 0)].

(** Three samples along the first axis, at 2, 2.5 and 4. *)
Definition line_samples : list EigenTrajectoryPoint :=
  [sample_at (mkVector3d 2 0 0); sample_at (mkVector3d 2.5 0 0);
   sample_at (mkVector3d 4 0 0)].
End DecimatorExamples.

Module DrawVerticesSpec.
Import Eigen geometry_msgs std_msgs visualization_msgs mav_viz.
Import ros_visualization.

(** The positions of the vertices that carry a position constraint, in
    input order. *)
Definition constrained_positions (vertices : list Vertex.t) : list Point :=
  omap (fun vertex =>
          match Vertex.getConstraint vertex derivative_order.POSITION with
          | Some position => Some (eigenToPoint (to3 position))
          | None => None
          end) vertices.

(** The points the marker array already holds in its first marker when it
    is handed to [drawVertices]; none for an empty array. *)
Definition stale_points (marker_array : MarkerArray) : list Point :=
  points (front (resize1 marker_array)).

(** The contract of [drawVertices] with [prefix] standing for the points
    that precede the vertex positions in the polyline: the call returns
    [false] exactly when some vertex is not of dimension 3, and when it
    returns [true] the array is one [LINE_STRIP] in the frame [frame_id]
    whose points are [prefix] followed by the constrained positions. *)
Definition drawVertices_contract (prefix : list Point)
    (vertices : list Vertex.t) (frame_id : string) (now : Time)
    (marker_array : MarkerArray) : Prop :=
  let res := drawVertices vertices frame_id now marker_array in
  (fst res = false <-> Exists (fun vertex => Vertex.D vertex <> 3%nat) vertices) /\
  (fst res = true ->
   exists polyline,
     snd res = [polyline] /\
     type polyline = LINE_STRIP /\
     std_msgs.frame_id (header polyline) = frame_id /\
     points polyline = prefix ++ constrained_positions vertices).

(** A marker array that has been drawn into before: one marker with one
    point. *)
Definition used_array : MarkerArray :=
  [push_point (mkPoint 1 1 1) Marker_default].

(** A vertex of dimension 3 without any constraint, and one at (1, 2, 0). *)
Definition free_vertex : Vertex.t := Vertex.new 3.
Definition placed_vertex : Vertex.t :=
  Vertex.addConstraint (Vertex.new 3) derivative_order.POSITION
                       [1%R; 2%R; 0%R].
End DrawVerticesSpec.

Module ExtraSpec.
Import Eigen geometry_msgs std_msgs waypoint_node waypoint_loop.

(** The waypoint of a pose with its height dropped, as a polyline point. *)
Definition planar_point (p : Pose) : Point :=
  mkPoint (x (position p)) (y (position p)) 0.

(** The horizontal coordinates of a pose, all that the node reads of it. *)
Definition horizontal (p : Pose) : R * R :=
  (x (position p), y (position p)).

(** The value of [way_] when pass [k] of the loop starts: the last message
    dispatched during the passes before it, the initial empty array if
    there was none. *)
Definition way_before (iterations : list Iteration) (k : nat) : PoseArray :=
  default way_initial
          (last (concat (map dispatched (take k iterations)))).

(** Two messages, the second one without poses, and three passes of the
    loop: both messages arrive during the first pass, none later. *)
Definition three_passes : list Iteration :=
  [mkIteration 0%Z [Examples.way_three; Examples.way_two];
   mkIteration 1%Z [];
   mkIteration 2%Z [Examples.way_none]].
End ExtraSpec.

Module OffboardSpec.
Import geometry_msgs std_msgs offb_node.
Local Open Scope R_scope.

(** The point of the sine curve for the parameter [t], at height [h]. *)
Definition curve (t h : R) : Point :=
  mkPoint t (6 * sin (t * PI / 6)) h.

(** The setpoints a run publishes, in order. *)
Definition setpoints (outs : list StepOut) : list Point :=
  omap setpoint outs.

(** Both clock reads of a pass are within five seconds of [since]. *)
Definition within_five_seconds (since : Time) (input : State * Env) : Prop :=
  (clock_arm_check (snd input) - since <= five_seconds)%Z /\
  (clock_mode_check (snd input) - since <= five_seconds)%Z.

(** A vehicle that reports disarmed and in manual mode, and an environment
    in which the clock stands at [t] and every service call succeeds. *)
Definition disarmed : State := mkState true false "MANUAL".
Definition calls_succeed (t : Time) : Env :=
  mkEnv t true true t t true true t.

(** A vehicle that reports armed, still in manual mode. *)
Definition armed_manual : State := mkState true true "MANUAL".

(** Two passes that enable the setpoints: six seconds after the start the
    disarmed vehicle is armed, six seconds later the mode is switched. *)
Definition enabling_run : list (State * Env) :=
  [(disarmed, calls_succeed 6000000000%Z);
   (armed_manual, calls_succeed 12000000000%Z)].

(** A loop state in which both flags are set. *)
Definition enabled : Loop := mkLoop 0%Z true true 0 (mkPoint 0 0 2).

(** A stand-in for the [float] increment, to evaluate runs with: it adds
    one hundredth without rounding. *)
Definition exact_hundredth : FloatArith :=
  {| add_hundredth := fun t => t + 1 / 100 |}.

(** The enabling run followed by a pass a nanosecond later, in which the
    vehicle is armed and no service is due. *)
Definition publishing_run : list (State * Env) :=
  enabling_run ++ [(armed_manual, calls_succeed 12000000001%Z)].
End OffboardSpec.

(* ===================================================================== *)
(** * Part VI: properties of the vertex builder *)
(* ===================================================================== *)


Section VertexBuilderProofs.
Import Eigen geometry_msgs waypoint_node VertexBuilderSpec.

Lemma addConstraint_D v d c : Vertex.D (Vertex.addConstraint v d c) = Vertex.D v.
Proof. reflexivity. Qed.

Lemma makeStartOrEnd_zero_fold (l : list nat) : forall v,
  Vertex.D (fold_left (fun v i => Vertex.addConstraint v i (ZeroX (Vertex.D v))) l v)
    = Vertex.D v /\
  forall d,
    Vertex.constraints
      (fold_left (fun v i => Vertex.addConstraint v i (ZeroX (Vertex.D v))) l v) !! d
    = if decide (d ∈ l) then Some (ZeroX (Vertex.D v))
      else Vertex.constraints v !! d.
Proof.
  induction l as [|i l IH]; intros v; simpl.
  - split; [reflexivity|]. intros d.
    destruct (decide (d ∈ [])) as [H|H]; [|reflexivity].
    by apply elem_of_nil in H.
  - destruct (IH (Vertex.addConstraint v i (ZeroX (Vertex.D v)))) as [HD Hc].
    split; [by rewrite HD|]. intros d. rewrite Hc. simpl.
    destruct (decide (d ∈ l)) as [Hl|Hl].
    + rewrite decide_True; [reflexivity|]. by apply list_elem_of_further.
    + destruct (decide (d = i)) as [->|Hne].
      * rewrite decide_True; [|by apply list_elem_of_here].
        by rewrite lookup_insert_eq.
      * rewrite decide_False.
        -- by rewrite lookup_insert_ne.
        -- intros [?|?]%elem_of_cons; congruence.
Qed.

(** What [makeStartOrEnd] leaves in a fresh vertex. *)
Lemma makeStartOrEnd_boundary dim p order :
  let v := Vertex.makeStartOrEnd (Vertex.new dim) (toX p) order in
  Vertex.D v = dim /\
  Vertex.getConstraint v derivative_order.POSITION = Some (toX p) /\
  (forall d, (1 <= d <= order)%nat -> Vertex.getConstraint v d = Some (ZeroX dim)) /\
  (forall d, (order < d)%nat -> Vertex.getConstraint v d = None).
Proof.
  unfold Vertex.makeStartOrEnd, Vertex.getConstraint.
  set (v0 := Vertex.addConstraint _ _ _).
  destruct (makeStartOrEnd_zero_fold (seq 1 order) v0) as [HD Hc].
  cbv zeta. rewrite HD. split; [reflexivity|].
  split; [|split].
  - rewrite Hc, decide_False.
    + apply lookup_insert_eq.
    + rewrite list_elem_of_In, in_seq. unfold derivative_order.POSITION. lia.
  - intros d Hd. rewrite Hc, decide_True; [reflexivity|].
    rewrite list_elem_of_In, in_seq. lia.
  - intros d Hd. rewrite Hc, decide_False.
    + unfold v0. simpl. rewrite lookup_insert_ne.
      * apply lookup_empty.
      * unfold derivative_order.POSITION. lia.
    + rewrite list_elem_of_In, in_seq. lia.
Qed.

Lemma boundary_is_boundary way_ i :
  boundary_at derivative_to_optimize (xy0 way_ i) (boundary way_ i).
Proof. apply makeStartOrEnd_boundary. Qed.

Lemma interior_is_position_only way_ ii :
  position_only_at (xy0 way_ ii) (interior way_ ii).
Proof.
  unfold position_only_at, interior, Vertex.getConstraint. simpl.
  split; [reflexivity|]. split.
  - apply lookup_singleton_eq.
  - intros d Hd. by apply lookup_singleton_ne.
Qed.

(** The loop over the interior waypoints: whatever position the reused
    [middle] object held is overwritten, so each pushed copy carries the
    position of its own waypoint and nothing else. *)
Lemma middle_loop way_ (k : nat) : forall s middle vs,
  Vertex.D middle = dimension ->
  (forall d, d <> derivative_order.POSITION ->
             Vertex.constraints middle !! d = None) ->
  snd (fold_left (middle_body way_) (seq s k) (middle, vs))
  = vs ++ map (interior way_) (seq s k).
Proof.
  induction k as [|k IH]; intros s middle vs HD Hfree; simpl.
  - by rewrite app_nil_r.
  - assert (Hmid : Vertex.addConstraint middle derivative_order.POSITION
                     (toX (xy0 way_ s)) = interior way_ s).
    { unfold Vertex.addConstraint, interior. rewrite HD. f_equal.
      apply map_eq. intros d.
      destruct (decide (d = derivative_order.POSITION)) as [->|Hne].
      - by rewrite lookup_insert_eq, lookup_singleton_eq.
      - rewrite lookup_insert_ne, lookup_singleton_ne by congruence.
        by apply Hfree. }
    unfold middle_body at 2. simpl. rewrite Hmid.
    rewrite IH.
    + by rewrite <- app_assoc.
    + reflexivity.
    + intros d Hd. unfold interior. simpl. by apply lookup_singleton_ne.
Qed.

(** The vertex sequence in closed form. *)
Lemma build_vertices_eq way_ :
  build_vertices way_
  = boundary way_ 0
      :: map (interior way_) (seq 1 (length (poses way_) - 1 - 1))
      ++ [boundary way_ (length (poses way_) - 1)].
Proof.
  unfold build_vertices.
  pose proof (middle_loop way_ (length (poses way_) - 1 - 1) 1
                (Vertex.new dimension) [boundary way_ 0] eq_refl
                (fun d _ => lookup_empty d)) as H.
  fold (boundary way_ 0). fold (boundary way_ (length (poses way_) - 1)).
  destruct (fold_left _ _ _) as [m vs]. simpl in H. by rewrite H.
Qed.

(** A single waypoint passes the guard of the node and gives two
    vertices, both boundary vertices at that waypoint. *)
Lemma build_vertices_single p :
  build_vertices (mkPoseArray [p])
  = [boundary (mkPoseArray [p]) 0; boundary (mkPoseArray [p]) 0].
Proof. by rewrite build_vertices_eq. Qed.

Lemma build_vertices_length way_ :
  length (build_vertices way_) = S (S (length (poses way_) - 1 - 1)).
Proof.
  rewrite build_vertices_eq. simpl.
  rewrite length_app, length_map, length_seq. simpl. lia.
Qed.

Lemma build_vertices_lookup way_ i v :
  (2 <= length (poses way_))%nat ->
  build_vertices way_ !! i = Some v ->
  (i < length (poses way_))%nat /\
  v = if decide (i = 0%nat \/ i = (length (poses way_) - 1)%nat)
      then boundary way_ i else interior way_ i.
Proof.
  intros Hn Hi.
  assert (Hlt : (i < length (poses way_))%nat).
  { apply lookup_lt_Some in Hi. rewrite build_vertices_length in Hi. lia. }
  split; [exact Hlt|].
  rewrite build_vertices_eq in Hi.
  destruct i as [|i].
  - rewrite decide_True by auto. simpl in Hi. congruence.
  - simpl in Hi.
    destruct (decide (S i = (length (poses way_) - 1)%nat)) as [He|Hne].
    + rewrite decide_True by auto.
      rewrite lookup_app_r in Hi by (rewrite length_map, length_seq; lia).
      rewrite length_map, length_seq in Hi.
      replace (i - (length (poses way_) - 1 - 1))%nat with 0%nat in Hi by lia.
      simpl in Hi. rewrite He. congruence.
    + rewrite decide_False by lia.
      rewrite lookup_app_l in Hi by (rewrite length_map, length_seq; lia).
      rewrite list_lookup_fmap in Hi.
      rewrite lookup_seq_lt in Hi by lia. simpl in Hi. congruence.
Qed.
End VertexBuilderProofs.


Section VertexBuilderClaims.
Import Eigen geometry_msgs waypoint_node VertexBuilderSpec.

(** C1 (amended).  For every waypoint list with at least two waypoints the
    vertex sequence has one vertex per waypoint at the same index; the
    first and the last vertex are boundary vertices (every derivative from
    0 up to the optimize order constrained, the higher ones to zero), every
    interior vertex carries a position constraint only, and the position
    constraint of the vertex at index [i] is the [x] and [y] of waypoint
    [i] with the third coordinate set to 0. *)
Theorem C1_vertex_builder_contract (way_ : PoseArray) :
  (2 <= length (poses way_))%nat -> builder_contract xy0 way_.
Proof.
  intros Hn. unfold builder_contract. cbv zeta. split.
  - rewrite build_vertices_length. lia.
  - intros i v Hi.
    destruct (build_vertices_lookup way_ i v Hn Hi) as [_ ->].
    case_decide.
    + apply boundary_is_boundary.
    + apply interior_is_position_only.
Qed.

Lemma C1_vertex_builder_contract_witness :
  (2 <= length (poses Examples.way_three))%nat /\
  builder_contract xy0 Examples.way_three.
Proof.
  split; [simpl; lia | apply (C1_vertex_builder_contract Examples.way_three); simpl; lia].
Defined.

(** C1 as stated fails: with the position of a vertex required to equal the
    waypoint, [z] included, the two-waypoint list whose first waypoint is
    at height 5 breaks the contract, since its first vertex is at height
    0. *)
Lemma C1_counterexample_waypoint_height :
  (2 <= length (poses Examples.way_two))%nat /\
  ~ builder_contract xyz Examples.way_two.
Proof.
  split; [simpl; lia|].
  intros [_ H]. specialize (H 0%nat (boundary Examples.way_two 0)).
  rewrite build_vertices_eq in H. specialize (H eq_refl).
  rewrite decide_True in H by auto.
  destruct H as (_ & Hpos & _).
  destruct (boundary_is_boundary Examples.way_two 0) as (_ & Hpos' & _).
  rewrite Hpos' in Hpos. unfold toX, xy0, xyz in Hpos. simpl in Hpos.
  injection Hpos as Hz. lra.
Qed.


End VertexBuilderClaims.

(* ===================================================================== *)
(** * Part VII: properties of one cycle of the node *)
(* ===================================================================== *)


Section CycleProofs.
Import geometry_msgs std_msgs visualization_msgs waypoint_node CycleSpec.
Context {helpers : mav_viz.Helpers}.

(** With no waypoint the guard [way_.poses.size() > 0] skips the whole
    body: no vertex, no optimizer call, no publication. *)
Lemma cycle_empty {library : Library} (way_ : PoseArray) (now : Time) :
  poses way_ = [] -> cycle way_ now = mkCycleResult [] None None None.
Proof. intros H. unfold cycle. by rewrite H. Qed.

(** With at least one waypoint the body runs through to
    [vis_pub.publish(markers)]: the flags of the optimizer calls are
    dropped and the markers drawn from the optimizer's trajectory are
    published. *)
Lemma cycle_nonempty {library : Library} (way_ : PoseArray) (now : Time) :
  poses way_ <> [] ->
  let vertices := build_vertices way_ in
  let setup :=
    setupFromVertices (PolynomialOptimization_new 10 dimension) vertices
      (estimateSegmentTimes vertices 1 3 6.5) derivative_to_optimize in
  let solve := solveLinear (snd setup) in
  cycle way_ now =
  mkCycleResult vertices (Some (fst setup)) (Some (fst solve))
    (Some (ros_visualization.drawMavTrajectory
             (drawMavTrajectory_overload helpers)
             (getTrajectory (snd solve)) 1.6 "world" now [])).
Proof.
  intros H. unfold cycle.
  destruct (poses way_) as [|p l] eqn:Hp; [done|].
  cbn [length Nat.ltb Nat.leb]. cbv zeta.
  destruct (setupFromVertices _ _ _ _) as [f1 opt1]. cbn [fst snd].
  destruct (solveLinear opt1) as [f2 opt2]. cbn [fst snd].
  by destruct (evaluateRange _ _ _ _ _).
Qed.
End CycleProofs.

Section CycleClaims.
Import geometry_msgs std_msgs visualization_msgs waypoint_node CycleSpec.
Context {helpers : mav_viz.Helpers} {library : Library}.

(** C2 (amended).  The node skips a cycle exactly when the waypoint list is
    empty: then no vertex is built, no optimizer call is made and nothing
    is published, without any error being raised.  Every list with at least
    one waypoint, a list of exactly one waypoint included, passes the guard
    and ends in a publication. *)
Theorem C2_cycle_skipped_iff_no_waypoint (way_ : PoseArray) (now : Time) :
  ((length (poses way_) < 1)%nat <->
   cycle way_ now = mkCycleResult [] None None None) /\
  ((1 <= length (poses way_))%nat <->
   vertices (cycle way_ now) = build_vertices way_ /\
   is_Some (published (cycle way_ now))).
Proof.
  destruct (poses way_) as [|p l] eqn:Hp.
  - rewrite (cycle_empty way_ now Hp). simpl. split.
    + split; [reflexivity | lia].
    + split; [lia|]. intros [_ [m Hm]]. discriminate.
  - assert (Hne : poses way_ <> []) by (rewrite Hp; discriminate).
    rewrite (cycle_nonempty way_ now Hne). simpl. split.
    + split; [lia | discriminate].
    + split; [|lia]. intros _. split; [reflexivity | eauto].
Qed.

(** C9 (amended).  For a non-empty waypoint list the node publishes the
    markers drawn from the trajectory of the optimizer object whatever
    [setupFromVertices] and [solveLinear] returned: replacing the two flags
    by any others changes neither that a marker array is published nor
    which one.  The only invocation that publishes nothing is the one with
    an empty waypoint list. *)
Theorem C9_publication_ignores_stage_flags (setup_flag solve_flag : bool)
    (way_ : PoseArray) (now : Time) :
  poses way_ <> [] ->
  let res := cycle (library := with_flags setup_flag solve_flag library)
                   way_ now in
  setup_ok res = Some setup_flag /\
  solve_ok res = Some solve_flag /\
  is_Some (published res) /\
  published res = published (cycle (library := library) way_ now).
Proof.
  intros Hne. cbv zeta.
  rewrite (cycle_nonempty (library := library) way_ now Hne).
  rewrite (cycle_nonempty (library := with_flags setup_flag solve_flag library)
             way_ now Hne).
  simpl. repeat split; eauto.
Qed.
End CycleClaims.

Section CycleExamples.
Import geometry_msgs std_msgs visualization_msgs waypoint_node CycleSpec.
Import Examples.

Lemma C9_publication_ignores_stage_flags_witness :
  poses way_three <> [] /\
  let res := cycle (helpers := plain_helpers)
                   (library := with_flags false false working_library)
                   way_three 0%Z in
  setup_ok res = Some false /\
  solve_ok res = Some false /\
  is_Some (published res) /\
  published res
  = published (cycle (helpers := plain_helpers) (library := working_library)
                     way_three 0%Z).
Proof.
  assert (Hne : poses way_three <> []) by discriminate.
  split; [exact Hne|].
  exact (C9_publication_ignores_stage_flags (helpers := plain_helpers)
           (library := working_library) false false way_three 0%Z Hne).
Defined.

(** C2 as stated fails: a list of exactly one waypoint has fewer than two
    entries, yet the cycle builds vertices from it (two boundary vertices
    at that waypoint), runs the optimizer and publishes. *)
Lemma C2_counterexample_single_waypoint :
  let res := cycle (helpers := plain_helpers) (library := working_library)
                   way_one 0%Z in
  (length (poses way_one) < 2)%nat /\
  vertices res = [VertexBuilderSpec.boundary way_one 0;
                  VertexBuilderSpec.boundary way_one 0] /\
  published res <> None.
Proof.
  cbv zeta.
  rewrite (cycle_nonempty (helpers := plain_helpers)
             (library := working_library) way_one 0%Z) by discriminate.
  split; [simpl; lia|]. split; [|discriminate].
  apply build_vertices_single.
Qed.

(** C9 as stated fails: with an optimizer whose linear solve reports
    failure, the cycle on three waypoints records the failed stage and
    publishes a marker array all the same. *)
Lemma C9_counterexample_failed_solve_published :
  let res := cycle (helpers := plain_helpers) (library := failing_library)
                   way_three 0%Z in
  stage_failed res /\ published res <> None.
Proof.
  cbv zeta.
  rewrite (cycle_nonempty (helpers := plain_helpers)
             (library := failing_library) way_three 0%Z) by discriminate.
  split; [right; reflexivity | discriminate].
Qed.
End CycleExamples.

(* ===================================================================== *)
(** * Part VIII: properties of the visualization decimator *)
(* ===================================================================== *)


Section DecimatorProofs.
Import Eigen geometry_msgs std_msgs visualization_msgs mav_msgs mav_viz.
Import ros_visualization DecimatorSpec.
Local Open Scope R_scope.

Lemma norm_nonneg v : 0 <= norm v.
Proof. apply sqrt_pos. Qed.

Lemma norm_sub_same p : norm (sub p p) = 0.
Proof.
  unfold norm, sub. simpl.
  replace (_ + _ + _) with 0 by ring. apply sqrt_0.
Qed.

Lemma norm_sub_pos a b : a <> b -> 0 < norm (sub a b).
Proof.
  intros Hne. unfold norm. apply sqrt_lt_R0.
  destruct a as [a1 a2 a3], b as [b1 b2 b3]. simpl.
  pose proof (Rle_0_sqr (a1 - b1)) as S1.
  pose proof (Rle_0_sqr (a2 - b2)) as S2.
  pose proof (Rle_0_sqr (a3 - b3)) as S3.
  unfold Rsqr in S1, S2, S3.
  destruct (Req_dec_T a1 b1) as [->|H1].
  - destruct (Req_dec_T a2 b2) as [->|H2].
    + destruct (Req_dec_T a3 b3) as [->|H3]; [congruence|].
      assert (0 < (a3 - b3) * (a3 - b3))
        by (apply (Rsqr_pos_lt (a3 - b3)); lra).
      lra.
    + assert (0 < (a2 - b2) * (a2 - b2))
        by (apply (Rsqr_pos_lt (a2 - b2)); lra).
      lra.
  - assert (0 < (a1 - b1) * (a1 - b1))
      by (apply (Rsqr_pos_lt (a1 - b1)); lra).
    lra.
Qed.

Lemma path_length_nonneg ps : 0 <= path_length ps.
Proof.
  induction ps as [|p [|q ps] IH]; simpl in *; try lra.
  pose proof (norm_nonneg (sub p q)). lra.
Qed.

Lemma trace_length distance ps : forall acc cursor,
  length (trace distance acc cursor ps) = length ps.
Proof.
  induction ps as [|p ps IH]; intros acc cursor; simpl; [reflexivity|].
  destruct (Rgt_dec _ _); simpl; by rewrite IH.
Qed.

Context {helpers : Helpers}.

(** The loop, started from any state: the flags it records are those of
    [trace], the polyline grows by one point per sample, and the set-up of
    the [line_strip] marker is left alone. *)
Lemma loop_from distance additional_marker flat_states : forall st,
  let st' := fold_left (loop_body distance additional_marker) flat_states st in
  emitted st' =
    emitted st ++ trace distance (accumulated_distance st) (last_position st)
                         (positions flat_states) /\
  points (line_strip st') =
    points (line_strip st) ++ map eigenToPoint (positions flat_states) /\
  ns (line_strip st') = ns (line_strip st) /\
  type (line_strip st') = type (line_strip st).
Proof.
  induction flat_states as [|s l IH]; intros st; cbv zeta; simpl.
  - by rewrite !app_nil_r.
  - specialize (IH (loop_body distance additional_marker st s)).
    cbv zeta in IH. destruct IH as (He & Hp & Hn & Ht).
    rewrite He, Hp, Hn, Ht. unfold loop_body.
    destruct (Rgt_dec _ _); simpl; by rewrite <- !app_assoc.
Qed.

(** The marker array grows by [emit] at exactly the flagged samples. *)
Lemma loop_markers distance additional_marker flat_states : forall st,
  markers (fold_left (loop_body distance additional_marker) flat_states st)
  = fold_left
      (fun marker_array (sample : EigenTrajectoryPoint * bool) =>
         if snd sample
         then emit (fst sample) additional_marker marker_array
         else marker_array)
      (zip flat_states
           (trace distance (accumulated_distance st) (last_position st)
                  (positions flat_states)))
      (markers st).
Proof.
  induction flat_states as [|s l IH]; intros st; simpl; [reflexivity|].
  rewrite IH. unfold loop_body.
  destruct (Rgt_dec _ _); reflexivity.
Qed.

Lemma sampling_loop_emitted flat_states distance additional_marker :
  emitted (sampling_loop flat_states distance additional_marker)
  = trace distance 0 Zero3 (positions flat_states).
Proof.
  unfold sampling_loop.
  destruct (loop_from distance additional_marker flat_states
              (mkLoopState 0 Zero3 [] line_strip_init [])) as (He & _).
  exact He.
Qed.

Lemma sampling_loop_line_strip flat_states distance additional_marker :
  let line := line_strip (sampling_loop flat_states distance additional_marker) in
  points line = map eigenToPoint (positions flat_states) /\
  ns line = "path"%string /\ type line = LINE_STRIP.
Proof.
  unfold sampling_loop.
  destruct (loop_from distance additional_marker flat_states
              (mkLoopState 0 Zero3 [] line_strip_init [])) as (_ & Hp & Hn & Ht).
  cbv zeta. rewrite Hp, Hn, Ht. done.
Qed.
End DecimatorProofs.

Section TraceProofs.
Import Eigen DecimatorSpec.
Local Open Scope R_scope.

Lemma path_length_cons2 p q ps :
  path_length (p :: q :: ps) = norm (sub p q) + path_length (q :: ps).
Proof. reflexivity. Qed.

(** With spacing 0 the accumulator is 0 before every sample, and a sample
    emits exactly when it is away from the cursor. *)
Lemma trace_zero ps : forall cursor,
  trace 0 0 cursor ps = moved_flags cursor ps.
Proof.
  induction ps as [|p ps IH]; intros cursor; simpl; [reflexivity|].
  destruct (decide (p = cursor)) as [->|Hne].
  - rewrite norm_sub_same, bool_decide_eq_false_2 by auto.
    destruct (Rgt_dec (0 + 0) 0) as [Hgt|_]; [lra|].
    replace (0 + 0) with 0 by lra. by rewrite IH.
  - rewrite bool_decide_eq_true_2 by assumption.
    assert (0 < norm (sub cursor p)) by (apply norm_sub_pos; congruence).
    destruct (Rgt_dec _ _) as [_|Hle]; [|lra]. by rewrite IH.
Qed.

Lemma emission_count_le flags : (emission_count flags <= length flags)%nat.
Proof. induction flags as [|[] flags IH]; simpl; lia. Qed.

Lemma emission_count_all flags :
  emission_count flags = length flags <-> Forall (fun b => b = true) flags.
Proof.
  induction flags as [|b flags IH]; simpl.
  - split; [constructor | reflexivity].
  - pose proof (emission_count_le flags). destruct b; split.
    + intros H'. constructor; [reflexivity|]. apply IH. lia.
    + intros H'. inversion H'; subst. f_equal. by apply IH.
    + lia.
    + intros H'. by inversion H'.
Qed.

(** From a state with accumulator [acc] and cursor [cursor]: if the first
    [m] positions do not emit and the next one does, the accumulator plus
    the length of the path from the cursor through those positions exceeds
    the spacing. *)
Lemma trace_gap distance (m : nat) : forall ps acc cursor,
  (forall j, (j < m)%nat -> trace distance acc cursor ps !! j = Some false) ->
  trace distance acc cursor ps !! m = Some true ->
  acc + path_length (cursor :: take (S m) ps) > distance.
Proof.
  induction m as [|m IH]; intros [|p ps] acc cursor Hfalse Htrue;
    try discriminate; simpl in Htrue.
  - destruct (Rgt_dec _ _) as [Hgt|_]; [|discriminate].
    simpl. lra.
  - pose proof (Hfalse 0%nat ltac:(lia)) as H0. simpl in H0.
    destruct (Rgt_dec _ _) as [_|Hle]; [discriminate|].
    simpl in Htrue.
    assert (Hrest : forall j, (j < m)%nat ->
              trace distance (acc + norm (sub cursor p)) p ps !! j = Some false).
    { intros j Hj. specialize (Hfalse (S j) ltac:(lia)). simpl in Hfalse.
      destruct (Rgt_dec _ _); [contradiction|]. exact Hfalse. }
    specialize (IH ps _ p Hrest Htrue).
    change (take (S (S m)) (p :: ps)) with (p :: take (S m) ps).
    rewrite path_length_cons2. lra.
Qed.

(** After an emission at index [i] the loop continues as if started afresh
    at that position: accumulator 0, cursor at position [i]. *)
Lemma trace_after_emission distance (i : nat) : forall ps acc cursor p,
  ps !! i = Some p ->
  trace distance acc cursor ps !! i = Some true ->
  forall j, trace distance acc cursor ps !! (S i + j)%nat
            = trace distance 0 p (drop (S i) ps) !! j.
Proof.
  induction i as [|i IH]; intros [|q ps] acc cursor p Hp Htrue j;
    try discriminate; simpl in Hp, Htrue.
  - injection Hp as ->. simpl.
    destruct (Rgt_dec _ _); [reflexivity | discriminate].
  - simpl. destruct (Rgt_dec _ _); simpl in *; by apply IH.
Qed.

(** Two consecutive emissions, at [i] and at [k]: the path between the two
    positions is longer than the spacing. *)
Lemma trace_consecutive distance ps (i k : nat) :
  (i < k)%nat ->
  trace distance 0 Zero3 ps !! i = Some true ->
  trace distance 0 Zero3 ps !! k = Some true ->
  (forall j, (i < j < k)%nat -> trace distance 0 Zero3 ps !! j = Some false) ->
  path_length (between i k ps) > distance.
Proof.
  intros Hik Hi Hk Hmid.
  assert (Hlt : (i < length ps)%nat).
  { apply lookup_lt_Some in Hi. by rewrite trace_length in Hi. }
  destruct (lookup_lt_is_Some_2 ps i Hlt) as [p Hp].
  pose proof (trace_after_emission distance i ps 0 Zero3 p Hp Hi) as Hafter.
  pose proof (trace_gap distance (k - S i) (drop (S i) ps) 0 p) as Hgap.
  unfold between. rewrite (drop_S ps p i Hp).
  replace (S (k - i)) with (S (S (k - S i))) by lia.
  change (take (S (S (k - S i))) (p :: drop (S i) ps))
    with (p :: take (S (k - S i)) (drop (S i) ps)).
  assert (Hgoal : 0 + path_length (p :: take (S (k - S i)) (drop (S i) ps))
                  > distance).
  { apply Hgap.
    - intros j Hj. rewrite <- Hafter. apply Hmid. lia.
    - rewrite <- Hafter. replace (S i + (k - S i))%nat with k by lia.
      exact Hk. }
  lra.
Qed.

(** Norms along the first axis. *)
Lemma norm_sub_x_axis a b :
  norm (sub (mkVector3d a 0 0) (mkVector3d b 0 0)) = Rabs (a - b).
Proof.
  unfold norm, sub. simpl.
  replace ((a - b) * (a - b) + (0 - 0) * (0 - 0) + (0 - 0) * (0 - 0))
    with (Rsqr (a - b)) by (unfold Rsqr; ring).
  apply sqrt_Rsqr_abs.
Qed.
End TraceProofs.


Section MarkerProperties.
Import std_msgs visualization_msgs ros_visualization.

Lemma setMarkerProperties_snoc header life_time action markers marker :
  setMarkerProperties header life_time action (markers ++ [marker])
  = setMarkerProperties header life_time action markers
    ++ [set_id (length markers)
          (set_lifetime life_time (set_action action (set_header header marker)))].
Proof.
  unfold setMarkerProperties. rewrite imap_app. simpl.
  by rewrite Nat.add_0_r.
Qed.

Lemma setMarkerProperties_header hdr life_time action markers marker :
  marker ∈ setMarkerProperties hdr life_time action markers ->
  header marker = hdr.
Proof.
  unfold setMarkerProperties.
  intros (i & m & -> & _)%elem_of_lookup_imap. reflexivity.
Qed.
End MarkerProperties.

Section DecimatorClaims.
Import Eigen geometry_msgs std_msgs visualization_msgs mav_msgs mav_viz.
Import ros_visualization DecimatorSpec.
Local Open Scope R_scope.
Context {helpers : Helpers}.

(** C3 (amended).  With spacing 0 a sample emits the pose, acceleration and
    velocity markers exactly when its position differs from the cursor,
    that is from the position of the sample before it (from the zero
    vector for the first sample).  The number of emissions equals the
    number of samples exactly when every sample is away from its cursor. *)
Theorem C3_zero_spacing_emits_on_movement
    (flat_states : list EigenTrajectoryPoint) (additional_marker : MarkerGroup) :
  let flags := emitted (sampling_loop flat_states 0 additional_marker) in
  flags = moved_flags Zero3 (positions flat_states) /\
  (emission_count flags = length flat_states <->
   Forall (fun moved => moved = true)
          (moved_flags Zero3 (positions flat_states))).
Proof.
  cbv zeta. rewrite sampling_loop_emitted, trace_zero.
  split; [reflexivity|].
  rewrite <- emission_count_all.
  assert (Hlen : length (moved_flags Zero3 (positions flat_states))
                 = length flat_states).
  { rewrite <- trace_zero, trace_length. apply length_map. }
  by rewrite Hlen.
Qed.

(** C4.  For a spacing [distance > 0], if the samples at [i] and at [k]
    emit markers and no sample between them does, then the accumulated
    path distance from position [i] to position [k], the sum of the
    distances between successive cursor positions, exceeds [distance]. *)
Theorem C4_consecutive_emissions_spaced
    (flat_states : list EigenTrajectoryPoint) (distance : R)
    (additional_marker : MarkerGroup) (i k : nat) :
  0 < distance ->
  (i < k)%nat ->
  let flags := emitted (sampling_loop flat_states distance additional_marker) in
  flags !! i = Some true ->
  flags !! k = Some true ->
  (forall j, (i < j < k)%nat -> flags !! j = Some false) ->
  path_length (between i k (positions flat_states)) > distance.
Proof.
  intros _ Hik. cbv zeta. rewrite sampling_loop_emitted.
  by apply trace_consecutive.
Qed.

(** C5.  The marker array ends with the path polyline, a [LINE_STRIP]
    named "path" whose points are the positions of all samples in input
    order, one point per sample, whether or not the sample emitted
    markers. *)
Theorem C5_polyline_has_every_sample
    (flat_states : list EigenTrajectoryPoint) (distance : R)
    (frame_id : string) (additional_marker : MarkerGroup) (now : Time)
    (marker_array : MarkerArray) :
  exists discrete path,
    drawMavTrajectoryWithMavMarker flat_states distance frame_id
      additional_marker now marker_array = discrete ++ [path] /\
    type path = LINE_STRIP /\
    ns path = "path"%string /\
    points path = map eigenToPoint (positions flat_states) /\
    length (points path) = length flat_states.
Proof.
  unfold drawMavTrajectoryWithMavMarker. cbv zeta.
  rewrite setMarkerProperties_snoc.
  destruct (sampling_loop_line_strip flat_states distance additional_marker)
    as (Hp & Hn & Ht).
  eexists _, _. split; [reflexivity|]. simpl.
  rewrite Hp, Hn, Ht. repeat split.
  unfold positions. by rewrite !length_map.
Qed.

(** The body of [drawMavTrajectoryWithMavMarker] never reads its
    [frame_id] parameter: two calls that differ in it alone leave the same
    array. *)
Lemma drawMavTrajectoryWithMavMarker_frame_id_unused
    (flat_states : list EigenTrajectoryPoint) (distance : R)
    (frame_id frame_id' : string) (additional_marker : MarkerGroup)
    (now : Time) (marker_array : MarkerArray) :
  drawMavTrajectoryWithMavMarker flat_states distance frame_id
    additional_marker now marker_array
  = drawMavTrajectoryWithMavMarker flat_states distance frame_id'
      additional_marker now marker_array.
Proof. reflexivity. Qed.

(** C6 (what the code does).  Every marker of the array carries the frame
    "world", whatever [frame_id] the caller passed: the header is built
    from the literal, not from the parameter. *)
Theorem C6_markers_carry_world_frame
    (flat_states : list EigenTrajectoryPoint) (distance : R)
    (frame_id : string) (additional_marker : MarkerGroup) (now : Time)
    (marker_array : MarkerArray) (marker : Marker) :
  marker ∈ drawMavTrajectoryWithMavMarker flat_states distance frame_id
             additional_marker now marker_array ->
  std_msgs.frame_id (header marker) = "world"%string.
Proof.
  unfold drawMavTrajectoryWithMavMarker. cbv zeta.
  intros H%setMarkerProperties_header. by rewrite H.
Qed.
End DecimatorClaims.

Section DecimatorExampleProofs.
Import Eigen geometry_msgs std_msgs visualization_msgs mav_msgs mav_viz.
Import ros_visualization DecimatorSpec Examples DecimatorExamples.
Local Open Scope R_scope.

(** The flags of the three samples on a line for spacing 1: the first and
    the third emit, the second does not. *)
Lemma line_samples_trace :
  trace 1 0 Zero3 (positions line_samples) = [true; false; true].
Proof.
  unfold line_samples, positions, sample_at, Zero3.
  cbn [map position_W trace].
  rewrite !norm_sub_x_axis.
  assert (H1 : Rabs (0 - 2) = 2) by (rewrite Rabs_left; lra).
  assert (H2 : Rabs (2 - 2.5) = 0.5) by (rewrite Rabs_left; lra).
  assert (H3 : Rabs (2.5 - 4) = 1.5) by (rewrite Rabs_left; lra).
  rewrite H1, H2, H3.
  destruct (Rgt_dec (0 + 2) 1) as [_|?]; [|lra].
  destruct (Rgt_dec (0 + 0.5) 1) as [?|_]; [lra|].
  destruct (Rgt_dec (0 + 0.5 + 1.5) 1) as [_|?]; [|lra].
  reflexivity.
Qed.

(** The flags of the two samples at the same place for spacing 0: only the
    first one emits. *)
Lemma still_samples_flags :
  moved_flags Zero3 (positions still_samples) = [true; false].
Proof.
  unfold still_samples, positions, sample_at. cbn [map position_W moved_flags].
  rewrite bool_decide_eq_true_2, bool_decide_eq_false_2; [reflexivity|auto|].
  unfold Zero3. intros [=]. lra.
Qed.

(** C3 as stated fails: with spacing 0 the second of two samples at the
    same place emits nothing, so one emission stands against two
    samples. *)
Lemma C3_counterexample_still_sample :
  emission_count
    (emitted (sampling_loop (helpers := plain_helpers) still_samples 0 tt))
  <> length still_samples.
Proof.
  rewrite sampling_loop_emitted, trace_zero, still_samples_flags.
  simpl. lia.
Qed.

Lemma C4_consecutive_emissions_spaced_witness :
  0 < 1 /\ (0 < 2)%nat /\
  emitted (sampling_loop (helpers := plain_helpers) line_samples 1 tt)
  = [true; false; true] /\
  path_length (between 0 2 (positions line_samples)) > 1.
Proof.
  assert (Hflags :
    emitted (sampling_loop (helpers := plain_helpers) line_samples 1 tt)
    = [true; false; true]).
  { rewrite sampling_loop_emitted. exact line_samples_trace. }
  split; [lra|]. split; [lia|]. split; [exact Hflags|].
  apply (C4_consecutive_emissions_spaced (helpers := plain_helpers)
           line_samples 1 tt 0 2).
  - lra.
  - lia.
  - rewrite Hflags. reflexivity.
  - rewrite Hflags. reflexivity.
  - intros j Hj. replace j with 1%nat by lia. rewrite Hflags. reflexivity.
Defined.

(** The array drawn for no sample and frame "map": the path polyline
    alone, and it is stamped "world". *)
Lemma C6_markers_carry_world_frame_witness :
  let out := drawMavTrajectoryWithMavMarker (helpers := plain_helpers)
               [] 1.6 "map" tt 0%Z [] in
  exists marker, marker ∈ out /\
    std_msgs.frame_id (header marker) = "world"%string /\
    std_msgs.frame_id (header marker) <> "map"%string.
Proof.
  cbv zeta.
  set (out := drawMavTrajectoryWithMavMarker _ _ _ _ _ _).
  assert (Hin : set_id 0 (set_lifetime 0 (set_action ADD
                  (set_header (mkHeader "world" 0%Z) line_strip_init))) ∈ out).
  { apply list_elem_of_here. }
  eexists. split; [exact Hin|].
  pose proof (C6_markers_carry_world_frame (helpers := plain_helpers)
                [] 1.6 "map" tt 0%Z [] _ Hin) as Hworld.
  split; [exact Hworld|]. rewrite Hworld. discriminate.
Defined.
End DecimatorExampleProofs.

(* ===================================================================== *)
(** * Part IX: properties of [drawVertices] *)
(* ===================================================================== *)


Section DrawVerticesProofs.
Import Eigen geometry_msgs std_msgs visualization_msgs mav_viz.
Import ros_visualization DrawVerticesSpec.

(** The loop returns early exactly on a vertex of another dimension. *)
Lemma drawVertices_loop_flag vertices : forall marker,
  fst (drawVertices_loop vertices marker) = false
  <-> Exists (fun vertex => Vertex.D vertex <> 3%nat) vertices.
Proof.
  induction vertices as [|vertex rest IH]; intros marker; simpl.
  - split; [discriminate | by intros H%Exists_nil].
  - destruct (Nat.eqb_spec (Vertex.D vertex) 3) as [HD|HD]; simpl.
    + rewrite Exists_cons.
      destruct (Vertex.getConstraint vertex _); rewrite IH; tauto.
    + split; [by left | reflexivity].
Qed.

(** When the loop runs through, the marker has gained the constrained
    positions, in order, and nothing else has changed. *)
Lemma drawVertices_loop_points vertices : forall marker marker',
  drawVertices_loop vertices marker = (true, marker') ->
  points marker' = points marker ++ constrained_positions vertices /\
  type marker' = type marker /\ ns marker' = ns marker.
Proof.
  induction vertices as [|vertex rest IH]; intros marker marker' H;
    simpl in H.
  - injection H as <-. simpl. by rewrite app_nil_r.
  - destruct (negb _); [discriminate|].
    unfold constrained_positions. simpl.
    destruct (Vertex.getConstraint vertex _) as [position|].
    + apply IH in H as (Hp & Ht & Hn). simpl in Hp.
      rewrite Hp, Ht, Hn, <- app_assoc. done.
    + by apply IH in H.
Qed.

(** [drawVertices] in general: the first marker of the array is kept by
    [resize(1)], so the points it holds stay in front of the vertex
    positions. *)
Lemma drawVertices_general vertices frame_id now marker_array :
  drawVertices_contract (stale_points marker_array) vertices frame_id now
                        marker_array.
Proof.
  unfold drawVertices_contract, drawVertices. cbv zeta.
  set (marker := set_ns _ _).
  pose proof (drawVertices_loop_flag vertices marker) as Hflag.
  pose proof (drawVertices_loop_points vertices marker) as Hpoints.
  destruct (drawVertices_loop vertices marker) as [[|] marker']; simpl in *.
  - split; [exact Hflag|]. intros _.
    destruct (Hpoints marker' eq_refl) as (Hp & Ht & _).
    eexists. split; [reflexivity|]. simpl. rewrite Hp, Ht. done.
  - split; [exact Hflag | discriminate].
Qed.
End DrawVerticesProofs.

Section DrawVerticesClaims.
Import Eigen geometry_msgs std_msgs visualization_msgs mav_viz.
Import ros_visualization DrawVerticesSpec.

(** C10 (what the code does).  [drawVertices] returns [false] if and only
    if some vertex has a dimension other than 3, and vertices without a
    position constraint are skipped.  When it returns [true] the array
    holds one polyline in the frame [frame_id]; its points are the
    positions of the vertices that carry a position constraint, in input
    order, but behind the points that the first marker of the array held
    on entry: [resize(1)] keeps that marker and its points are never
    cleared.  Only for an array that is empty on entry does the polyline
    hold exactly the positions. *)
Theorem C10_drawVertices_contract (vertices : list Vertex.t)
    (frame_id : string) (now : Time) (marker_array : MarkerArray) :
  drawVertices_contract (stale_points marker_array) vertices frame_id now
                        marker_array /\
  drawVertices_contract [] vertices frame_id now [].
Proof. split; apply drawVertices_general. Qed.

(** The failing input of C10: drawing two vertices into an array whose
    first marker already holds a point returns [true] and leaves that
    point in the polyline, which then is not exactly the positions of the
    vertices. *)
Lemma drawVertices_used_array_keeps_stale_point :
  ~ drawVertices_contract [] [free_vertex; placed_vertex] "world" 0%Z
                          used_array.
Proof.
  intros [_ H]. destruct (H eq_refl) as (polyline & Hout & _ & _ & Hp).
  injection Hout as <-. discriminate Hp.
Qed.
End DrawVerticesClaims.

(* ===================================================================== *)
(** * Part X: further properties of the drawing functions *)
(* ===================================================================== *)

Section AppendMarkers.
Import std_msgs visualization_msgs ros_visualization.

(** [appendMarkers] in closed form. *)
Lemma appendMarkers_eq markers_to_insert marker_namespace : forall marker_array,
  appendMarkers markers_to_insert marker_namespace marker_array
  = marker_array
    ++ map (fun marker =>
              if String.eqb marker_namespace "" then marker
              else set_ns marker_namespace marker) markers_to_insert.
Proof.
  unfold appendMarkers.
  induction markers_to_insert as [|m l IH]; intros marker_array; simpl.
  - by rewrite app_nil_r.
  - rewrite IH. by rewrite <- app_assoc.
Qed.

(** X1.  With an empty namespace [appendMarkers] is plain concatenation:
    the markers already in the array stay in front and the inserted ones
    follow unchanged, in order. *)
Theorem X1_appendMarkers_empty_namespace
    (markers_to_insert marker_array : MarkerArray) :
  appendMarkers markers_to_insert "" marker_array
  = marker_array ++ markers_to_insert.
Proof. rewrite appendMarkers_eq. simpl. by rewrite map_id. Qed.

(** X2.  With a non-empty namespace the markers already in the array are
    left as they are (their namespaces too), and each inserted marker is
    appended, in order, with its namespace replaced and every other field
    kept. *)
Theorem X2_appendMarkers_renames_inserted
    (markers_to_insert marker_array : MarkerArray) (marker_namespace : string) :
  marker_namespace <> ""%string ->
  appendMarkers markers_to_insert marker_namespace marker_array
  = marker_array ++ map (set_ns marker_namespace) markers_to_insert.
Proof.
  intros Hne. rewrite appendMarkers_eq.
  destruct (String.eqb_spec marker_namespace "") as [->|_]; [done|reflexivity].
Qed.

Lemma X2_appendMarkers_renames_inserted_witness :
  "pose"%string <> ""%string /\
  appendMarkers [Marker_default; set_ns "x" Marker_default] "pose"
                [set_ns "path" Marker_default]
  = [set_ns "path" Marker_default] ++
    map (set_ns "pose") [Marker_default; set_ns "x" Marker_default].
Proof.
  assert (H : "pose"%string <> ""%string) by discriminate.
  split; [exact H|].
  exact (X2_appendMarkers_renames_inserted
           [Marker_default; set_ns "x" Marker_default]
           [set_ns "path" Marker_default] "pose" H).
Defined.
End AppendMarkers.

Section TraceExtra.
Import Eigen DecimatorSpec.
Local Open Scope R_scope.

(** A negative spacing is exceeded by every accumulated distance. *)
Lemma trace_negative distance ps : forall acc cursor,
  distance < 0 -> 0 <= acc ->
  trace distance acc cursor ps = repeat true (length ps).
Proof.
  induction ps as [|p ps IH]; intros acc cursor Hd Hacc; simpl; [reflexivity|].
  pose proof (norm_nonneg (sub cursor p)).
  destruct (Rgt_dec _ _) as [_|Hn]; [|lra].
  rewrite IH by lra. reflexivity.
Qed.

(** A path that stays within the spacing triggers nothing. *)
Lemma trace_short distance ps : forall acc cursor,
  acc + path_length (cursor :: ps) <= distance ->
  trace distance acc cursor ps = repeat false (length ps).
Proof.
  induction ps as [|p ps IH]; intros acc cursor H; [reflexivity|].
  rewrite path_length_cons2 in H.
  pose proof (path_length_nonneg (p :: ps)).
  cbn [trace length repeat].
  destruct (Rgt_dec _ _) as [Hgt|_]; [lra|].
  rewrite IH by lra. reflexivity.
Qed.

(** Every emission uses up more than the spacing of the path. *)
Lemma trace_count_bound distance ps : forall acc cursor,
  0 <= distance -> 0 <= acc ->
  INR (emission_count (trace distance acc cursor ps)) * distance
  <= acc + path_length (cursor :: ps).
Proof.
  induction ps as [|p ps IH]; intros acc cursor Hd Hacc.
  - simpl. lra.
  - rewrite path_length_cons2. cbn [trace].
    destruct (Rgt_dec _ _) as [Hgt|Hle].
    + cbn [emission_count]. rewrite S_INR.
      specialize (IH 0 p Hd ltac:(lra)). lra.
    + cbn [emission_count].
      pose proof (norm_nonneg (sub cursor p)).
      specialize (IH (acc + norm (sub cursor p)) p Hd ltac:(lra)). lra.
Qed.

(** The flags of a sequence do not depend on what follows it. *)
Lemma trace_prefix distance ps qs : forall acc cursor,
  exists rest,
    trace distance acc cursor (ps ++ qs)
    = trace distance acc cursor ps ++ rest /\
    length rest = length qs.
Proof.
  induction ps as [|p ps IH]; intros acc cursor; simpl.
  - eexists. split; [reflexivity|]. apply trace_length.
  - destruct (Rgt_dec _ _).
    + destruct (IH 0 p) as (rest & -> & Hlen). by exists rest.
    + destruct (IH (acc + norm (sub cursor p)) p) as (rest & -> & Hlen).
      by exists rest.
Qed.

Lemma emission_count_repeat_true n : emission_count (repeat true n) = n.
Proof. induction n; simpl; congruence. Qed.
End TraceExtra.

Section TraceFirst.
Import Eigen DecimatorSpec.
Local Open Scope R_scope.

(** While nothing is emitted the accumulator holds the whole path walked
    so far, and that is within the spacing. *)
Lemma trace_quiet distance (m : nat) : forall ps acc cursor,
  (m < length ps)%nat ->
  (forall j, (j <= m)%nat -> trace distance acc cursor ps !! j = Some false) ->
  acc + path_length (cursor :: take (S m) ps) <= distance.
Proof.
  induction m as [|m IH]; intros [|p ps] acc cursor Hlen Hfalse;
    simpl in Hlen; try lia.
  - pose proof (Hfalse 0%nat ltac:(lia)) as H0. simpl in H0.
    destruct (Rgt_dec _ _) as [|Hle]; [discriminate|]. simpl. lra.
  - pose proof (Hfalse 0%nat ltac:(lia)) as H0. simpl in H0.
    destruct (Rgt_dec _ _) as [|Hle]; [discriminate|].
    change (take (S (S m)) (p :: ps)) with (p :: take (S m) ps).
    rewrite path_length_cons2.
    assert (Hrest : forall j, (j <= m)%nat ->
              trace distance (acc + norm (sub cursor p)) p ps !! j = Some false).
    { intros j Hj. specialize (Hfalse (S j) ltac:(lia)). simpl in Hfalse.
      destruct (Rgt_dec _ _); [contradiction|]. exact Hfalse. }
    specialize (IH ps _ p ltac:(lia) Hrest). lra.
Qed.
End TraceFirst.

Section DecimatorExtras.
Import Eigen geometry_msgs std_msgs visualization_msgs mav_msgs mav_viz.
Import ros_visualization DecimatorSpec.
Local Open Scope R_scope.
Context {helpers : Helpers}.

(** Without a flagged sample the marker array stays as it is. *)
Lemma fold_no_emission additional_marker (l : list EigenTrajectoryPoint) :
  forall marker_array,
  fold_left
    (fun marker_array (sample : EigenTrajectoryPoint * bool) =>
       if snd sample then emit (fst sample) additional_marker marker_array
       else marker_array)
    (zip l (repeat false (length l))) marker_array
  = marker_array.
Proof. induction l as [|s l IH]; intros ma; simpl; [reflexivity | apply IH]. Qed.

(** X3.  With a negative spacing every sample takes the emitting branch,
    also a sample that has not moved: the emission count equals the sample
    count. *)
Theorem X3_negative_spacing_emits_always
    (flat_states : list EigenTrajectoryPoint) (distance : R)
    (additional_marker : MarkerGroup) :
  distance < 0 ->
  emitted (sampling_loop flat_states distance additional_marker)
  = repeat true (length flat_states) /\
  emission_count (emitted (sampling_loop flat_states distance additional_marker))
  = length flat_states.
Proof.
  intros Hd. rewrite sampling_loop_emitted, trace_negative by lra.
  unfold positions. rewrite length_map.
  split; [reflexivity | apply emission_count_repeat_true].
Qed.

(** X4.  When the path from the origin through all samples is no longer
    than the spacing, no sample emits and the marker array consists of the
    path polyline alone, which still holds every sample position. *)
Theorem X4_short_path_gives_polyline_only
    (flat_states : list EigenTrajectoryPoint) (distance : R)
    (frame_id : string) (additional_marker : MarkerGroup) (now : Time)
    (marker_array : MarkerArray) :
  path_length (Zero3 :: positions flat_states) <= distance ->
  emitted (sampling_loop flat_states distance additional_marker)
  = repeat false (length flat_states) /\
  exists path,
    drawMavTrajectoryWithMavMarker flat_states distance frame_id
      additional_marker now marker_array = [path] /\
    points path = map eigenToPoint (positions flat_states).
Proof.
  intros Hshort.
  assert (Htrace : trace distance 0 Zero3 (positions flat_states)
                   = repeat false (length flat_states)).
  { rewrite trace_short by lra. unfold positions. by rewrite length_map. }
  split; [by rewrite sampling_loop_emitted|].
  unfold drawMavTrajectoryWithMavMarker. cbv zeta.
  assert (Hm : markers (sampling_loop flat_states distance additional_marker) = []).
  { unfold sampling_loop. rewrite loop_markers. cbn [accumulated_distance
      last_position markers]. rewrite Htrace. apply fold_no_emission. }
  rewrite Hm.
  destruct (sampling_loop_line_strip flat_states distance additional_marker)
    as (Hp & _).
  eexists. split; [reflexivity|]. exact Hp.
Qed.

(** X5.  For a spacing that is not negative, the number of emissions times
    the spacing is at most the length of the path from the origin through
    all samples: markers cannot be denser than the spacing allows. *)
Theorem X5_emission_count_bounded_by_path
    (flat_states : list EigenTrajectoryPoint) (distance : R)
    (additional_marker : MarkerGroup) :
  0 <= distance ->
  INR (emission_count
         (emitted (sampling_loop flat_states distance additional_marker)))
  * distance
  <= path_length (Zero3 :: positions flat_states).
Proof.
  intros Hd. rewrite sampling_loop_emitted.
  pose proof (trace_count_bound distance (positions flat_states) 0 Zero3 Hd
                ltac:(lra)). lra.
Qed.

(** X6.  Decimation works online: the emission flags and the polyline
    points of a sample sequence are a prefix of those of any longer
    sequence that starts with it. *)
Theorem X6_decimation_extends_prefix
    (flat_states more : list EigenTrajectoryPoint) (distance : R)
    (additional_marker : MarkerGroup) :
  exists rest,
    emitted (sampling_loop (flat_states ++ more) distance additional_marker)
    = emitted (sampling_loop flat_states distance additional_marker) ++ rest /\
    length rest = length more /\
    points (line_strip
              (sampling_loop (flat_states ++ more) distance additional_marker))
    = points (line_strip
                (sampling_loop flat_states distance additional_marker))
      ++ map eigenToPoint (positions more).
Proof.
  rewrite !sampling_loop_emitted.
  destruct (sampling_loop_line_strip (flat_states ++ more) distance
              additional_marker) as (Hp1 & _).
  destruct (sampling_loop_line_strip flat_states distance additional_marker)
    as (Hp2 & _).
  cbv zeta in Hp1, Hp2. rewrite Hp1, Hp2.
  unfold positions. rewrite !map_app.
  destruct (trace_prefix distance (map position_W flat_states)
              (map position_W more) 0 Zero3) as (rest & Hrest & Hlen).
  exists rest. rewrite Hrest, Hlen, length_map. done.
Qed.

(** X7.  The first marker is measured from the world origin: if the first
    sample that emits is sample [k], the path from the origin through
    samples 0 to [k] is longer than the spacing, and the path from the
    origin through samples 0 to [j] is within it for every [j] before
    [k]. *)
Theorem X7_first_emission_measured_from_origin
    (flat_states : list EigenTrajectoryPoint) (distance : R)
    (additional_marker : MarkerGroup) (k : nat) :
  let flags := emitted (sampling_loop flat_states distance additional_marker) in
  flags !! k = Some true ->
  (forall j, (j < k)%nat -> flags !! j = Some false) ->
  path_length (Zero3 :: take (S k) (positions flat_states)) > distance /\
  forall j, (j < k)%nat ->
    path_length (Zero3 :: take (S j) (positions flat_states)) <= distance.
Proof.
  cbv zeta. rewrite sampling_loop_emitted. intros Hk Hbefore. split.
  - pose proof (trace_gap distance k (positions flat_states) 0 Zero3
                  Hbefore Hk). lra.
  - intros j Hj.
    assert (Hlen : (j < length (positions flat_states))%nat).
    { apply lookup_lt_Some in Hk. rewrite trace_length in Hk. lia. }
    pose proof (trace_quiet distance j (positions flat_states) 0 Zero3 Hlen
                  (fun i Hi => Hbefore i ltac:(lia))). lra.
Qed.
End DecimatorExtras.

Section DecimatorExtraWitnesses.
Import Eigen geometry_msgs std_msgs visualization_msgs mav_msgs mav_viz.
Import ros_visualization DecimatorSpec Examples DecimatorExamples.
Local Open Scope R_scope.

(** The path from the origin through the three samples on a line is 4
    long. *)
Lemma line_samples_path :
  path_length (Zero3 :: positions line_samples) = 4.
Proof.
  unfold line_samples, positions, sample_at, Zero3.
  cbn [map position_W path_length].
  rewrite !norm_sub_x_axis.
  assert (H1 : Rabs (0 - 2) = 2) by (rewrite Rabs_left; lra).
  assert (H2 : Rabs (2 - 2.5) = 0.5) by (rewrite Rabs_left; lra).
  assert (H3 : Rabs (2.5 - 4) = 1.5) by (rewrite Rabs_left; lra).
  rewrite H1, H2, H3. lra.
Qed.

(** For spacing 2.2 only the second of the three samples emits. *)
Lemma line_samples_trace_wide :
  trace 2.2 0 Zero3 (positions line_samples) = [false; true; false].
Proof.
  unfold line_samples, positions, sample_at, Zero3.
  cbn [map position_W trace].
  rewrite !norm_sub_x_axis.
  assert (H1 : Rabs (0 - 2) = 2) by (rewrite Rabs_left; lra).
  assert (H2 : Rabs (2 - 2.5) = 0.5) by (rewrite Rabs_left; lra).
  assert (H3 : Rabs (2.5 - 4) = 1.5) by (rewrite Rabs_left; lra).
  rewrite H1, H2, H3.
  destruct (Rgt_dec (0 + 2) 2.2) as [?|_]; [lra|].
  destruct (Rgt_dec (0 + 2 + 0.5) 2.2) as [_|?]; [|lra].
  destruct (Rgt_dec (0 + 1.5) 2.2) as [?|_]; [lra|].
  reflexivity.
Qed.

Lemma X3_negative_spacing_emits_always_witness :
  -1 < 0 /\
  emitted (sampling_loop (helpers := plain_helpers) still_samples (-1) tt)
  = [true; true] /\
  emission_count
    (emitted (sampling_loop (helpers := plain_helpers) still_samples (-1) tt))
  = 2%nat.
Proof.
  assert (H : -1 < 0) by lra.
  split; [exact H|].
  exact (X3_negative_spacing_emits_always (helpers := plain_helpers)
           still_samples (-1) tt H).
Defined.

Lemma X4_short_path_gives_polyline_only_witness :
  path_length (Zero3 :: positions line_samples) <= 10 /\
  emitted (sampling_loop (helpers := plain_helpers) line_samples 10 tt)
  = [false; false; false] /\
  exists path,
    drawMavTrajectoryWithMavMarker (helpers := plain_helpers) line_samples 10
      "world" tt 0%Z [] = [path] /\
    points path = map eigenToPoint (positions line_samples).
Proof.
  assert (H : path_length (Zero3 :: positions line_samples) <= 10).
  { rewrite line_samples_path. lra. }
  split; [exact H|].
  exact (X4_short_path_gives_polyline_only (helpers := plain_helpers)
           line_samples 10 "world" tt 0%Z [] H).
Defined.

Lemma X5_emission_count_bounded_by_path_witness :
  0 <= 1 /\
  INR (emission_count
         (emitted (sampling_loop (helpers := plain_helpers) line_samples 1 tt)))
  * 1
  <= path_length (Zero3 :: positions line_samples).
Proof.
  assert (H : 0 <= 1) by lra.
  split; [exact H|].
  exact (X5_emission_count_bounded_by_path (helpers := plain_helpers)
           line_samples 1 tt H).
Defined.

Lemma X7_first_emission_measured_from_origin_witness :
  emitted (sampling_loop (helpers := plain_helpers) line_samples 2.2 tt)
  = [false; true; false] /\
  path_length (Zero3 :: take 2 (positions line_samples)) > 2.2 /\
  forall j, (j < 1)%nat ->
    path_length (Zero3 :: take (S j) (positions line_samples)) <= 2.2.
Proof.
  assert (Hflags :
    emitted (sampling_loop (helpers := plain_helpers) line_samples 2.2 tt)
    = [false; true; false]).
  { rewrite sampling_loop_emitted. exact line_samples_trace_wide. }
  split; [exact Hflags|].
  apply (X7_first_emission_measured_from_origin (helpers := plain_helpers)
           line_samples 2.2 tt 1).
  - rewrite Hflags. reflexivity.
  - intros j Hj. replace j with 0%nat by lia. rewrite Hflags. reflexivity.
Defined.
End DecimatorExtraWitnesses.

Section DrawVerticesExtras.
Import Eigen geometry_msgs std_msgs visualization_msgs mav_viz.
Import ros_visualization DrawVerticesSpec.

(** The loop touches nothing but the points of the marker. *)
Lemma drawVertices_loop_keeps vertices : forall marker,
  let marker' := snd (drawVertices_loop vertices marker) in
  header marker' = header marker /\ type marker' = type marker /\
  ns marker' = ns marker.
Proof.
  induction vertices as [|vertex rest IH]; intros marker; simpl; [done|].
  destruct (negb _); [done|].
  destruct (Vertex.getConstraint vertex _) as [position|]; [|apply IH].
  specialize (IH (push_point (eigenToPoint (to3 position)) marker)).
  exact IH.
Qed.

(** A vertex of another dimension stops the loop where it stands: the
    marker holds the positions of the vertices before it. *)
Lemma drawVertices_loop_stops good : forall bad rest marker,
  Forall (fun vertex => Vertex.D vertex = 3%nat) good ->
  Vertex.D bad <> 3%nat ->
  exists marker',
    drawVertices_loop (good ++ bad :: rest) marker = (false, marker') /\
    points marker' = points marker ++ constrained_positions good.
Proof.
  induction good as [|vertex good IH]; intros bad rest marker Hgood Hbad.
  - simpl. destruct (Nat.eqb_spec (Vertex.D bad) 3); [done|]. simpl.
    eexists. split; [reflexivity|]. by rewrite app_nil_r.
  - inversion Hgood as [|? ? HD Hgood']; subst. simpl. rewrite HD. simpl.
    unfold constrained_positions. simpl.
    destruct (Vertex.getConstraint vertex _) as [position|].
    + destruct (IH bad rest (push_point (eigenToPoint (to3 position)) marker)
                  Hgood' Hbad) as (marker' & Hrun & Hp).
      exists marker'. split; [exact Hrun|].
      rewrite Hp. simpl. by rewrite <- app_assoc.
    + by apply IH.
Qed.

Lemma drawVertices_loop_runs vertices marker :
  Forall (fun vertex => Vertex.D vertex = 3%nat) vertices ->
  fst (drawVertices_loop vertices marker) = true.
Proof.
  intros Hall. destruct (fst _) eqn:Hf; [reflexivity|].
  apply drawVertices_loop_flag in Hf.
  apply Exists_exists in Hf as (vertex & Hin & Hne).
  rewrite Forall_forall in Hall. by specialize (Hall vertex Hin).
Qed.

(** [drawVertices] on vertices that all have dimension 3. *)
Lemma drawVertices_runs vertices frame_id now marker_array :
  Forall (fun vertex => Vertex.D vertex = 3%nat) vertices ->
  exists polyline,
    drawVertices vertices frame_id now marker_array = (true, [polyline]) /\
    points polyline
    = stale_points marker_array ++ constrained_positions vertices.
Proof.
  intros Hall.
  destruct (drawVertices_general vertices frame_id now marker_array)
    as [_ Hok].
  pose proof (drawVertices_loop_runs vertices
                (set_ns "straight_path"
                   (set_scale_x 0.01
                      (set_color (createColorRGBA 0.5 1 0 1)
                         (set_type LINE_STRIP (front (resize1 marker_array))))))
                Hall) as Hrun.
  assert (Hfst : fst (drawVertices vertices frame_id now marker_array) = true).
  { unfold drawVertices. cbv zeta.
    destruct (drawVertices_loop _ _) as [[|] m]; [reflexivity | discriminate]. }
  destruct (Hok Hfst) as (polyline & Hout & _ & _ & Hp).
  exists polyline. split; [|exact Hp].
  rewrite (surjective_pairing (drawVertices vertices frame_id now marker_array)).
  by rewrite Hfst, Hout.
Qed.

(** X8.  Whatever the vertices and whatever the array held, [drawVertices]
    leaves exactly one marker in the array, a [LINE_STRIP] named
    "straight_path", on success and on failure alike. *)
Theorem X8_drawVertices_leaves_one_marker (vertices : list Vertex.t)
    (frame_id : string) (now : Time) (marker_array : MarkerArray) :
  exists polyline,
    snd (drawVertices vertices frame_id now marker_array) = [polyline] /\
    type polyline = LINE_STRIP /\
    ns polyline = "straight_path"%string.
Proof.
  unfold drawVertices. cbv zeta.
  set (marker := set_ns _ _).
  pose proof (drawVertices_loop_keeps vertices marker) as Hkeep.
  cbv zeta in Hkeep. destruct Hkeep as (_ & Ht & Hn).
  destruct (drawVertices_loop vertices marker) as [[|] marker']; simpl in *.
  - eexists. split; [reflexivity|]. simpl. by rewrite Ht, Hn.
  - eexists. split; [reflexivity|]. by rewrite Ht, Hn.
Qed.

(** X9.  When a vertex of a dimension other than 3 is met, [drawVertices]
    returns [false] at once and leaves a partial polyline behind: it holds
    the positions of the vertices before the offending one (after whatever
    points the first marker held on entry), and its header is the one the
    marker had on entry, not stamped with [frame_id]. *)
Theorem X9_drawVertices_failure_leaves_partial_polyline
    (good rest : list Vertex.t) (bad : Vertex.t) (frame_id : string)
    (now : Time) (marker_array : MarkerArray) :
  Forall (fun vertex => Vertex.D vertex = 3%nat) good ->
  Vertex.D bad <> 3%nat ->
  exists polyline,
    drawVertices (good ++ bad :: rest) frame_id now marker_array
    = (false, [polyline]) /\
    points polyline = stale_points marker_array ++ constrained_positions good /\
    header polyline = header (front (resize1 marker_array)).
Proof.
  intros Hgood Hbad. unfold drawVertices. cbv zeta.
  set (marker := set_ns _ _).
  destruct (drawVertices_loop_stops good bad rest marker Hgood Hbad)
    as (marker' & Hrun & Hp).
  pose proof (drawVertices_loop_keeps (good ++ bad :: rest) marker) as Hkeep.
  cbv zeta in Hkeep. rewrite Hrun in *. simpl in Hkeep.
  destruct Hkeep as (Hh & _).
  exists marker'. split; [reflexivity|]. split; [exact Hp | exact Hh].
Qed.

(** X10.  [drawVertices] does not clear the polyline: drawing the same
    vertices a second time into the array the first call left behind
    gives a polyline that holds their positions twice. *)
Theorem X10_drawVertices_twice_duplicates_points (vertices : list Vertex.t)
    (frame_id : string) (now now' : Time) (marker_array : MarkerArray) :
  Forall (fun vertex => Vertex.D vertex = 3%nat) vertices ->
  exists polyline,
    drawVertices vertices frame_id now'
      (snd (drawVertices vertices frame_id now marker_array))
    = (true, [polyline]) /\
    points polyline
    = stale_points marker_array ++ constrained_positions vertices
      ++ constrained_positions vertices.
Proof.
  intros Hall.
  destruct (drawVertices_runs vertices frame_id now marker_array Hall)
    as (first & Hfirst & Hp1).
  rewrite Hfirst. simpl.
  destruct (drawVertices_runs vertices frame_id now' [first] Hall)
    as (second & Hsecond & Hp2).
  exists second. split; [exact Hsecond|].
  rewrite Hp2. unfold stale_points at 1. simpl. rewrite Hp1.
  by rewrite <- app_assoc.
Qed.
End DrawVerticesExtras.

Section DrawVerticesExtraWitnesses.
Import Eigen geometry_msgs std_msgs visualization_msgs mav_viz.
Import ros_visualization DrawVerticesSpec.

Lemma X9_drawVertices_failure_leaves_partial_polyline_witness :
  Forall (fun vertex => Vertex.D vertex = 3%nat) [placed_vertex] /\
  Vertex.D (Vertex.new 2) <> 3%nat /\
  exists polyline,
    drawVertices ([placed_vertex] ++ Vertex.new 2 :: [placed_vertex])
                 "world" 0%Z []
    = (false, [polyline]) /\
    points polyline = stale_points [] ++ constrained_positions [placed_vertex] /\
    header polyline = header (front (resize1 [])).
Proof.
  assert (H1 : Forall (fun vertex => Vertex.D vertex = 3%nat) [placed_vertex]).
  { constructor; [reflexivity | constructor]. }
  assert (H2 : Vertex.D (Vertex.new 2) <> 3%nat) by (simpl; lia).
  split; [exact H1|]. split; [exact H2|].
  exact (X9_drawVertices_failure_leaves_partial_polyline [placed_vertex]
           [placed_vertex] (Vertex.new 2) "world" 0%Z [] H1 H2).
Defined.

Lemma X10_drawVertices_twice_duplicates_points_witness :
  Forall (fun vertex => Vertex.D vertex = 3%nat) [placed_vertex; free_vertex] /\
  exists polyline,
    drawVertices [placed_vertex; free_vertex] "world" 1%Z
      (snd (drawVertices [placed_vertex; free_vertex] "world" 0%Z []))
    = (true, [polyline]) /\
    points polyline
    = stale_points [] ++ constrained_positions [placed_vertex; free_vertex]
      ++ constrained_positions [placed_vertex; free_vertex].
Proof.
  assert (H : Forall (fun vertex => Vertex.D vertex = 3%nat)
                     [placed_vertex; free_vertex]).
  { repeat constructor. }
  split; [exact H|].
  exact (X10_drawVertices_twice_duplicates_points [placed_vertex; free_vertex]
           "world" 0%Z 1%Z [] H).
Defined.
End DrawVerticesExtraWitnesses.

(* ===================================================================== *)
(** * Part XI: further properties of the waypoint node *)
(* ===================================================================== *)

Section NodeExtras.
Import Eigen geometry_msgs std_msgs visualization_msgs mav_viz.
Import ros_visualization waypoint_node VertexBuilderSpec DrawVerticesSpec.
Import ExtraSpec.

Lemma boundary_D way_ i : Vertex.D (boundary way_ i) = 3%nat.
Proof. by destruct (boundary_is_boundary way_ i) as (HD & _). Qed.

Lemma boundary_position way_ i :
  Vertex.getConstraint (boundary way_ i) derivative_order.POSITION
  = Some (toX (xy0 way_ i)).
Proof. by destruct (boundary_is_boundary way_ i) as (_ & Hp & _). Qed.

Lemma interior_position way_ i :
  Vertex.getConstraint (interior way_ i) derivative_order.POSITION
  = Some (toX (xy0 way_ i)).
Proof. by destruct (interior_is_position_only way_ i) as (_ & Hp & _). Qed.

Lemma build_vertices_dimension way_ :
  Forall (fun vertex => Vertex.D vertex = 3%nat) (build_vertices way_).
Proof.
  rewrite build_vertices_eq. constructor; [apply boundary_D|].
  apply Forall_app. split.
  - apply Forall_forall. intros v (i & -> & _)%list_elem_of_fmap. reflexivity.
  - constructor; [apply boundary_D | constructor].
Qed.

Lemma xy0_horizontal way_ way_' i :
  map horizontal (poses way_) = map horizontal (poses way_') ->
  xy0 way_ i = xy0 way_' i.
Proof.
  intros Hmap.
  assert (H : horizontal (pose_at way_ i) = horizontal (pose_at way_' i)).
  { unfold pose_at.
    rewrite <- (map_nth horizontal (poses way_)),
            <- (map_nth horizontal (poses way_')).
    by rewrite Hmap. }
  unfold horizontal in H. injection H as Hx Hy.
  unfold xy0. by rewrite Hx, Hy.
Qed.

(** X13.  The vertices depend on the horizontal coordinates of the
    waypoints only: two waypoint lists that agree in [x] and [y] give the
    same vertices, whatever their heights and orientations. *)
Theorem X13_vertices_ignore_height_and_orientation (way_ way_' : PoseArray) :
  map horizontal (poses way_) = map horizontal (poses way_') ->
  build_vertices way_ = build_vertices way_'.
Proof.
  intros Hmap.
  assert (Hlen : length (poses way_) = length (poses way_')).
  { by rewrite <- (length_map horizontal), Hmap, length_map. }
  rewrite !build_vertices_eq, Hlen.
  unfold boundary, interior.
  rewrite !(xy0_horizontal way_ way_' _ Hmap).
  f_equal. f_equal. apply map_ext. intros i.
  by rewrite (xy0_horizontal way_ way_' i Hmap).
Qed.

Lemma X13_vertices_ignore_height_and_orientation_witness :
  let flat :=
    mkPoseArray [mkPose (mkPoint 1 2 0) (mkQuaternion 1 0 0 0);
                 mkPose (mkPoint 3 4 9) (mkQuaternion 0 1 0 0)] in
  map horizontal (poses Examples.way_two) = map horizontal (poses flat) /\
  build_vertices Examples.way_two = build_vertices flat.
Proof.
  cbv zeta.
  assert (H : map horizontal (poses Examples.way_two)
              = map horizontal
                  (poses (mkPoseArray
                     [mkPose (mkPoint 1 2 0) (mkQuaternion 1 0 0 0);
                      mkPose (mkPoint 3 4 9) (mkQuaternion 0 1 0 0)]))).
  { reflexivity. }
  split; [exact H|].
  exact (X13_vertices_ignore_height_and_orientation Examples.way_two _ H).
Defined.

Lemma constrained_positions_app l1 l2 :
  constrained_positions (l1 ++ l2)
  = constrained_positions l1 ++ constrained_positions l2.
Proof. unfold constrained_positions. apply omap_app. Qed.

Lemma constrained_positions_cons vertex l :
  constrained_positions (vertex :: l)
  = match Vertex.getConstraint vertex derivative_order.POSITION with
    | Some position =>
        eigenToPoint (to3 position) :: constrained_positions l
    | None => constrained_positions l
    end.
Proof.
  unfold constrained_positions. simpl.
  by destruct (Vertex.getConstraint vertex _).
Qed.

Lemma constrained_positions_interior way_ (idxs : list nat) :
  constrained_positions (map (interior way_) idxs)
  = map (fun i => planar_point (pose_at way_ i)) idxs.
Proof.
  induction idxs as [|i idxs IH]; [reflexivity|].
  cbn [map]. rewrite constrained_positions_cons, interior_position, IH.
  reflexivity.
Qed.

Lemma constrained_positions_boundary way_ i :
  constrained_positions [boundary way_ i] = [planar_point (pose_at way_ i)].
Proof.
  rewrite constrained_positions_cons, boundary_position. reflexivity.
Qed.

Lemma map_pose_at way_ :
  map (fun i => planar_point (pose_at way_ i)) (seq 0 (length (poses way_)))
  = map planar_point (poses way_).
Proof.
  apply list_eq. intros i. rewrite !list_lookup_fmap.
  destruct (decide (i < length (poses way_))%nat) as [Hlt|Hge].
  - rewrite lookup_seq_lt by lia. simpl.
    destruct (lookup_lt_is_Some_2 (poses way_) i Hlt) as [p Hp].
    rewrite Hp. simpl. unfold pose_at.
    by rewrite (nth_lookup_Some _ _ _ _ Hp).
  - rewrite lookup_seq_ge by lia.
    by rewrite (lookup_ge_None_2 (poses way_) i) by lia.
Qed.

(** X11.  Drawing the vertices the node builds from at least two
    waypoints into an empty array succeeds, and the polyline runs through
    the waypoints in order, each at height 0. *)
Theorem X11_drawVertices_of_built_vertices (way_ : PoseArray)
    (frame_id : string) (now : Time) :
  (2 <= length (poses way_))%nat ->
  exists polyline,
    drawVertices (build_vertices way_) frame_id now [] = (true, [polyline]) /\
    points polyline = map planar_point (poses way_).
Proof.
  intros Hn.
  destruct (drawVertices_runs (build_vertices way_) frame_id now []
              (build_vertices_dimension way_)) as (polyline & Hrun & Hp).
  exists polyline. split; [exact Hrun|].
  rewrite Hp. unfold stale_points. simpl.
  rewrite build_vertices_eq.
  change (boundary way_ 0 :: ?l) with ([boundary way_ 0] ++ l).
  rewrite !constrained_positions_app, !constrained_positions_boundary,
          constrained_positions_interior.
  rewrite <- map_pose_at.
  replace (seq 0 (length (poses way_)))
    with ([0%nat] ++ seq 1 (length (poses way_) - 1 - 1)
          ++ [(length (poses way_) - 1)%nat]).
  - by rewrite !map_app.
  - replace (length (poses way_))
      with (1 + ((length (poses way_) - 1 - 1) + 1))%nat at 3 by lia.
    rewrite !seq_app. simpl. repeat f_equal. lia.
Qed.

Lemma X11_drawVertices_of_built_vertices_witness :
  (2 <= length (poses Examples.way_two))%nat /\
  exists polyline,
    drawVertices (build_vertices Examples.way_two) "world" 0%Z []
    = (true, [polyline]) /\
    points polyline = map planar_point (poses Examples.way_two).
Proof.
  assert (H : (2 <= length (poses Examples.way_two))%nat) by (simpl; lia).
  split; [exact H|].
  exact (X11_drawVertices_of_built_vertices Examples.way_two "world" 0%Z H).
Defined.
End NodeExtras.

Section LoopExtras.
Import Eigen geometry_msgs std_msgs visualization_msgs mav_msgs mav_viz.
Import ros_visualization waypoint_node waypoint_loop DecimatorSpec ExtraSpec.
Context {helpers : Helpers} {library : Library}.

(** The callback keeps the last message only. *)
Lemma spinOnce_last dispatched : forall way_,
  spinOnce dispatched way_ = default way_ (last dispatched).
Proof.
  induction dispatched as [|msg rest IH]; intros way_; [reflexivity|].
  simpl. rewrite IH, last_cons. unfold waycb.
  by destruct (last rest).
Qed.

Lemma default_last_app (way_ : PoseArray) (l1 l2 : list PoseArray) :
  default (default way_ (last l1)) (last l2) = default way_ (last (l1 ++ l2)).
Proof. rewrite last_app. by destruct (last l2). Qed.

(** Pass [k] of the loop runs on the last message dispatched before it. *)
Lemma iterate_lookup iterations : forall way_ k iteration,
  iterations !! k = Some iteration ->
  iterate iterations way_ !! k
  = Some (cycle (default way_
                   (last (concat (map dispatched (take k iterations)))))
                (now iteration)).
Proof.
  induction iterations as [|first rest IH]; intros way_ k iteration Hk;
    [discriminate|].
  destruct k as [|k]; simpl in *.
  - by injection Hk as ->.
  - rewrite (IH _ k iteration Hk), spinOnce_last, default_last_app.
    reflexivity.
Qed.

(** X14.  Latest value wins, one pass late: pass [k] of the loop behaves
    as one cycle on the last message dispatched during the passes before
    it (on the empty initial array if there was none), and it publishes
    exactly when that array holds at least one pose.  The first pass
    therefore never publishes. *)
Theorem X14_pass_runs_on_latest_message (iterations : list Iteration)
    (k : nat) (iteration : Iteration) :
  iterations !! k = Some iteration ->
  main iterations !! k
  = Some (cycle (way_before iterations k) (now iteration)) /\
  (is_Some (published (cycle (way_before iterations k) (now iteration)))
   <-> poses (way_before iterations k) <> []).
Proof.
  intros Hk. split; [by apply iterate_lookup|].
  destruct (poses (way_before iterations k)) as [|p l] eqn:Hp.
  - rewrite (cycle_empty _ _ Hp). simpl. split; [intros [m Hm]|]; done.
  - assert (Hne : poses (way_before iterations k) <> [])
      by (rewrite Hp; discriminate).
    rewrite (cycle_nonempty _ (now iteration) Hne). simpl.
    split; [discriminate | eauto].
Qed.

(** X12.  In a cycle the node builds no vertex for an empty waypoint
    list, and for a list of [n >= 1] waypoints it builds [max 2 n]
    vertices, all of dimension 3: whenever the optimizer is called it is
    handed at least two vertices (two for a single waypoint). *)
Theorem X12_vertex_count_and_dimension (way_ : PoseArray) (now : Time) :
  length (vertices (cycle way_ now))
  = match poses way_ with
    | [] => 0%nat
    | _ :: _ => Nat.max 2 (length (poses way_))
    end /\
  Forall (fun vertex => Vertex.D vertex = 3%nat) (vertices (cycle way_ now)).
Proof.
  destruct (poses way_) as [|p l] eqn:Hp.
  - rewrite (cycle_empty _ _ Hp). simpl. split; [reflexivity | constructor].
  - assert (Hne : poses way_ <> []) by (rewrite Hp; discriminate).
    rewrite (cycle_nonempty way_ now Hne). simpl. split.
    + rewrite build_vertices_length, Hp. simpl. lia.
    + apply build_vertices_dimension.
Qed.
End LoopExtras.

Section LoopExtraWitnesses.
Import geometry_msgs std_msgs visualization_msgs mav_viz.
Import waypoint_node waypoint_loop ExtraSpec Examples.

Lemma X14_pass_runs_on_latest_message_witness :
  three_passes !! 1%nat = Some (mkIteration 1%Z []) /\
  way_before three_passes 1 = way_two /\
  main (helpers := plain_helpers) (library := working_library) three_passes
    !! 1%nat
  = Some (cycle (helpers := plain_helpers) (library := working_library)
                (way_before three_passes 1) 1%Z).
Proof.
  assert (H : three_passes !! 1%nat = Some (mkIteration 1%Z [])) by reflexivity.
  split; [exact H|]. split; [reflexivity|].
  exact (proj1 (X14_pass_runs_on_latest_message (helpers := plain_helpers)
                  (library := working_library) three_passes 1
                  (mkIteration 1%Z []) H)).
Defined.

End LoopExtraWitnesses.

(* ===================================================================== *)
(** * Part XII: properties of the offboard setpoint node *)
(* ===================================================================== *)


Section OffboardProofs.
Import geometry_msgs std_msgs offb_node OffboardSpec.
Local Open Scope R_scope.
Context {float_arith : FloatArith}.

(** The service requests of a pass leave [theta] and the pose alone and
    never clear a flag; publishing leaves the flags, the height and
    [last_request] alone. *)
Lemma publish_setpoint_spec st :
  let '(st', published) := publish_setpoint st in
  flag1 st' = flag1 st /\ flag2 st' = flag2 st /\
  last_request st' = last_request st /\ z (pose st') = z (pose st) /\
  (published = None -> flag1 st && flag2 st = false /\ theta st' = theta st) /\
  (forall p, published = Some p ->
     flag1 st && flag2 st = true /\ p = curve (theta st) (z (pose st)) /\
     theta st' = add_hundredth (theta st)).
Proof.
  unfold publish_setpoint. destruct (flag1 st && flag2 st); simpl.
  - repeat split; try discriminate. all: by injection H as <-.
  - repeat split; discriminate.
Qed.

Lemma step_flags cs env st :
  (flag1 st = true -> flag1 (next (step cs env st)) = true) /\
  (flag2 st = true -> flag2 (next (step cs env st)) = true) /\
  z (pose (next (step cs env st))) = z (pose st).
Proof.
  unfold step.
  destruct (negb (armed cs) && _).
  - match goal with |- context [publish_setpoint ?s] =>
      pose proof (publish_setpoint_spec s) as H;
      destruct (publish_setpoint s) as [st' published] end.
    simpl in *. destruct H as (H1 & H2 & _ & Hz & _).
    rewrite H1, H2, Hz. repeat split; try done.
    intros ->. by destruct (arm_call env && arm_success env).
  - destruct (negb (String.eqb (mode cs) "OFFBOARD") && _).
    + match goal with |- context [publish_setpoint ?s] =>
        pose proof (publish_setpoint_spec s) as H;
        destruct (publish_setpoint s) as [st' published] end.
      simpl in *. destruct H as (H1 & H2 & _ & Hz & _).
      rewrite H1, H2, Hz. repeat split; try done.
      intros ->. by destruct (mode_call env && mode_sent env).
    + pose proof (publish_setpoint_spec st) as H.
      destruct (publish_setpoint st) as [st' published].
      simpl in *. destruct H as (H1 & H2 & _ & Hz & _).
      by rewrite H1, H2, Hz.
Qed.

(** What a pass publishes, in terms of the flags after its requests. *)
Lemma step_setpoint cs env st :
  match setpoint (step cs env st) with
  | Some p =>
      flag1 (next (step cs env st)) = true /\
      flag2 (next (step cs env st)) = true /\
      p = curve (theta st) (z (pose st)) /\
      theta (next (step cs env st)) = add_hundredth (theta st)
  | None =>
      flag1 (next (step cs env st)) && flag2 (next (step cs env st)) = false /\
      theta (next (step cs env st)) = theta st
  end.
Proof.
  unfold step.
  destruct (negb (armed cs) && _); [|destruct (negb _ && _)].
  all: match goal with |- context [publish_setpoint ?s] =>
         pose proof (publish_setpoint_spec s) as H;
         destruct (publish_setpoint s) as [st' [p|]] end.
  all: simpl in *; destruct H as (H1 & H2 & _ & _ & Hnone & Hsome).
  all: try (destruct (Hsome p eq_refl) as (Hf & -> & Ht);
            apply andb_true_iff in Hf as [Hf1 Hf2];
            rewrite H1, H2, Hf1, Hf2; by repeat split).
  all: destruct (Hnone eq_refl) as (Hf & Ht); by rewrite H1, H2, Hf.
Qed.
End OffboardProofs.

Section OffboardRuns.
Import geometry_msgs std_msgs offb_node OffboardSpec.
Local Open Scope R_scope.
Context {float_arith : FloatArith}.

(** A flag that is set after a pass was set before it or was set by a
    service call that succeeded in that pass. *)
Lemma step_flag_origin cs env st :
  (flag2 (next (step cs env st)) = true ->
   flag2 st = true \/ arm_succeeded (step cs env st) = true) /\
  (flag1 (next (step cs env st)) = true ->
   flag1 st = true \/ mode_succeeded (step cs env st) = true).
Proof.
  unfold step.
  destruct (negb (armed cs) && _); [|destruct (negb _ && _)].
  all: match goal with |- context [publish_setpoint ?s] =>
         pose proof (publish_setpoint_spec s) as H;
         destruct (publish_setpoint s) as [st' published] end.
  all: simpl in *; destruct H as (H1 & H2 & _); rewrite H1, H2.
  - split; [|auto]. destruct (arm_call env && arm_success env); auto.
  - split; [auto|]. destruct (mode_call env && mode_sent env); auto.
  - auto.
Qed.

(** A pass whose clock reads are within five seconds of [last_request]
    calls no service and changes nothing but what publishing changes. *)
Lemma step_quiet cs env st :
  within_five_seconds (last_request st) (cs, env) ->
  arm_requested (step cs env st) = false /\
  mode_requested (step cs env st) = false /\
  last_request (next (step cs env st)) = last_request st /\
  flag1 (next (step cs env st)) = flag1 st /\
  flag2 (next (step cs env st)) = flag2 st.
Proof.
  intros [Harm Hmode]. simpl in Harm, Hmode. unfold step.
  rewrite (proj2 (Z.ltb_ge _ _) Harm), (proj2 (Z.ltb_ge _ _) Hmode).
  rewrite !andb_false_r.
  pose proof (publish_setpoint_spec st) as H.
  destruct (publish_setpoint st) as [st' published]. simpl.
  by destruct H as (H1 & H2 & H3 & _).
Qed.

Lemma setpoints_cons out outs :
  setpoints (out :: outs)
  = match setpoint out with
    | Some p => p :: setpoints outs
    | None => setpoints outs
    end.
Proof. unfold setpoints. simpl. by destruct (setpoint out). Qed.

(** The [j]-th setpoint of a run is published at the [theta] reached by
    [j] increments, at the height the pose had at the start, and its [y]
    is six times a sine. *)
Lemma run_setpoints inputs : forall st j p,
  setpoints (run inputs st) !! j = Some p ->
  x p = Nat.iter j add_hundredth (theta st) /\
  z p = z (pose st) /\
  -6 <= y p <= 6.
Proof.
  induction inputs as [|[cs env] rest IH]; intros st j p Hj; [discriminate|].
  cbn [run] in Hj. rewrite setpoints_cons in Hj.
  pose proof (step_setpoint cs env st) as Hstep.
  destruct (step_flags cs env st) as (_ & _ & Hz).
  destruct (setpoint (step cs env st)) as [q|].
  - destruct Hstep as (_ & _ & -> & Ht).
    destruct j as [|j]; simpl in Hj.
    + injection Hj as <-. simpl. split; [reflexivity|]. split; [reflexivity|].
      pose proof (SIN_bound (theta st * PI / 6)). lra.
    + apply IH in Hj. rewrite Ht, Hz in Hj.
      by rewrite Nat.iter_succ_r.
  - destruct Hstep as (_ & Ht). apply IH in Hj. by rewrite Ht, Hz in Hj.
Qed.

(** X16.  The flags latch: once both are set, every later pass publishes a
    setpoint, whatever the vehicle reports (disarmed, another mode) and
    whatever the service calls return. *)
Theorem X16_setpoints_never_stop_once_enabled
    (inputs : list (State * Env)) (st : Loop) :
  flag1 st = true -> flag2 st = true ->
  Forall (fun out => is_Some (setpoint out)) (run inputs st).
Proof.
  revert st. induction inputs as [|[cs env] rest IH]; intros st H1 H2;
    [constructor|].
  cbn [run]. destruct (step_flags cs env st) as (Hf1 & Hf2 & _).
  specialize (Hf1 H1). specialize (Hf2 H2).
  constructor; [|by apply IH].
  pose proof (step_setpoint cs env st) as Hstep.
  destruct (setpoint (step cs env st)); [eauto|].
  destruct Hstep as (Hf & _). rewrite Hf1, Hf2 in Hf. discriminate.
Qed.

(** X17.  The [j]-th setpoint the main loop publishes has as its [x] the
    value of [theta] after [j] increments from 0, whenever it is published
    and whatever the vehicle reported in between; its height is 2 and its
    [y] stays between -6 and 6. *)
Theorem X17_setpoint_x_counts_increments (inputs : list (State * Env))
    (start : Time) (j : nat) (p : Point) :
  setpoints (run inputs (loop_initial start)) !! j = Some p ->
  x p = Nat.iter j add_hundredth 0 /\ z p = 2 /\ -6 <= y p <= 6.
Proof. intros Hj. by apply run_setpoints in Hj. Qed.

(** X18.  The main loop publishes no setpoint before both an arming call
    and a set-mode call have succeeded: a pass that publishes is preceded
    by (or is itself) a pass in which the arming service was called and
    reported success, and likewise for the mode service. *)
Theorem X18_setpoint_needs_both_services (inputs : list (State * Env))
    (start : Time) (k : nat) (out : StepOut) :
  run inputs (loop_initial start) !! k = Some out ->
  is_Some (setpoint out) ->
  (exists i o, (i <= k)%nat /\
     run inputs (loop_initial start) !! i = Some o /\
     arm_succeeded o = true) /\
  (exists i o, (i <= k)%nat /\
     run inputs (loop_initial start) !! i = Some o /\
     mode_succeeded o = true).
Proof.
  assert (Hgen : forall inputs st k out,
    run inputs st !! k = Some out -> is_Some (setpoint out) ->
    (flag2 st = true \/
     exists i o, (i <= k)%nat /\ run inputs st !! i = Some o /\
                 arm_succeeded o = true) /\
    (flag1 st = true \/
     exists i o, (i <= k)%nat /\ run inputs st !! i = Some o /\
                 mode_succeeded o = true)).
  { clear. induction inputs as [|[cs env] rest IH]; intros st k out Hk Hpub;
      [discriminate|].
    cbn [run] in *.
    destruct (step_flag_origin cs env st) as (Harm & Hmode).
    destruct k as [|k]; simpl in Hk.
    - injection Hk as <-.
      pose proof (step_setpoint cs env st) as Hstep.
      destruct Hpub as [p Hp]. rewrite Hp in Hstep.
      destruct Hstep as (Hf1 & Hf2 & _). split.
      + destruct (Harm Hf2); [by left|]. right. exists 0%nat. eauto.
      + destruct (Hmode Hf1); [by left|]. right. exists 0%nat. eauto.
    - destruct (IH _ k out Hk Hpub) as (Ha & Hm). split.
      + destruct Ha as [Hf|(i & o & Hi & Ho & Hs)].
        * destruct (Harm Hf); [by left|]. right. exists 0%nat.
          eexists. split; [lia|]. eauto.
        * right. exists (S i), o. split; [lia|]. eauto.
      + destruct Hm as [Hf|(i & o & Hi & Ho & Hs)].
        * destruct (Hmode Hf); [by left|]. right. exists 0%nat.
          eexists. split; [lia|]. eauto.
        * right. exists (S i), o. split; [lia|]. eauto. }
  intros Hk Hpub.
  destruct (Hgen inputs (loop_initial start) k out Hk Hpub) as ([?|Ha] & [?|Hm]);
    try discriminate.
  by split.
Qed.

(** X19.  As long as every clock read is within five seconds of the time
    the main loop was entered, the loop calls neither service and
    publishes no setpoint. *)
Theorem X19_first_five_seconds_are_quiet (inputs : list (State * Env))
    (start : Time) :
  Forall (within_five_seconds start) inputs ->
  Forall (fun out => arm_requested out = false /\
                     mode_requested out = false /\
                     setpoint out = None)
         (run inputs (loop_initial start)).
Proof.
  assert (Hgen : forall inputs st,
    flag1 st && flag2 st = false ->
    Forall (within_five_seconds (last_request st)) inputs ->
    Forall (fun out => arm_requested out = false /\
                       mode_requested out = false /\ setpoint out = None)
           (run inputs st)).
  { clear. induction inputs as [|[cs env] rest IH]; intros st Hf Hall;
      [constructor|].
    inversion Hall as [|? ? Hin Hrest]; subst. cbn [run].
    destruct (step_quiet cs env st Hin) as (Ha & Hm & Hl & H1 & H2).
    pose proof (step_setpoint cs env st) as Hstep.
    constructor.
    - repeat split; try done.
      destruct (setpoint (step cs env st)); [|done].
      destruct Hstep as (Hf1 & Hf2 & _). rewrite H1, H2 in *.
      rewrite Hf1, Hf2 in Hf. discriminate.
    - apply IH; [by rewrite H1, H2 | by rewrite Hl]. }
  intros Hall. by apply Hgen.
Qed.

(** The warm-up loop streams copies of the one pose. *)
Lemma warm_up_repeat ok pose (i : nat) : forall k,
  exists n, (n <= i)%nat /\ warm_up ok k i pose = repeat pose n /\
            ((forall m, (k <= m < k + i)%nat -> ok m = true) -> n = i).
Proof.
  induction i as [|i IH]; intros k; simpl.
  - exists 0%nat. by repeat split.
  - destruct (ok k) eqn:Hok.
    + destruct (IH (S k)) as (n & Hn & Hrun & Hall).
      exists (S n). split; [lia|]. split; [by rewrite Hrun|].
      intros H. f_equal. apply Hall. intros m Hm. apply H. lia.
    + exists 0%nat. split; [lia|]. split; [reflexivity|].
      intros H. rewrite H in Hok by lia. discriminate.
Qed.

(** X20.  Before the main loop the node streams the hover setpoint
    (0, 0, 2) and nothing else, at most 250 times, and exactly 250 times
    when [ros::ok()] holds throughout. *)
Theorem X20_warm_up_streams_hover_setpoint (ok : nat -> bool) :
  exists n, (n <= 250)%nat /\
    initial_setpoints ok = repeat (mkPoint 0 0 2) n /\
    ((forall m, (m < 250)%nat -> ok m = true) -> n = 250%nat).
Proof.
  destruct (warm_up_repeat ok (mkPoint 0 0 2) 250 0) as (n & Hn & Hrun & Hall).
  exists n. split; [exact Hn|]. split; [exact Hrun|].
  intros H. apply Hall. intros m Hm. apply H. lia.
Qed.
End OffboardRuns.

Section OffboardWitnesses.
Import geometry_msgs std_msgs offb_node OffboardSpec.
Local Open Scope R_scope.
Local Existing Instance exact_hundredth.

Lemma X16_setpoints_never_stop_once_enabled_witness :
  flag1 enabled = true /\ flag2 enabled = true /\
  Forall (fun out => is_Some (setpoint out))
         (run [(disarmed, calls_succeed 1%Z); (disarmed, calls_succeed 2%Z)]
              enabled).
Proof.
  split; [reflexivity|]. split; [reflexivity|].
  exact (X16_setpoints_never_stop_once_enabled
           [(disarmed, calls_succeed 1%Z); (disarmed, calls_succeed 2%Z)]
           enabled eq_refl eq_refl).
Defined.

(** The publishing run publishes its second setpoint in its third
    pass. *)
Lemma publishing_run_setpoints :
  setpoints (run publishing_run (loop_initial 0%Z)) !! 1%nat
  = Some (curve (0 + 1 / 100) 2).
Proof. reflexivity. Qed.

Lemma X17_setpoint_x_counts_increments_witness :
  setpoints (run publishing_run (loop_initial 0%Z)) !! 1%nat
  = Some (curve (0 + 1 / 100) 2) /\
  x (curve (0 + 1 / 100) 2) = Nat.iter 1 add_hundredth 0 /\
  z (curve (0 + 1 / 100) 2) = 2 /\
  -6 <= y (curve (0 + 1 / 100) 2) <= 6.
Proof.
  split; [exact publishing_run_setpoints|].
  exact (X17_setpoint_x_counts_increments publishing_run 0%Z 1
           (curve (0 + 1 / 100) 2) publishing_run_setpoints).
Defined.

Lemma X18_setpoint_needs_both_services_witness :
  exists out,
    run enabling_run (loop_initial 0%Z) !! 1%nat = Some out /\
    is_Some (setpoint out) /\
    (exists i o, (i <= 1)%nat /\
       run enabling_run (loop_initial 0%Z) !! i = Some o /\
       arm_succeeded o = true) /\
    (exists i o, (i <= 1)%nat /\
       run enabling_run (loop_initial 0%Z) !! i = Some o /\
       mode_succeeded o = true).
Proof.
  eexists. split; [reflexivity|].
  assert (Hpub : is_Some (setpoint
            (step armed_manual (calls_succeed 12000000000%Z)
               (next (step disarmed (calls_succeed 6000000000%Z)
                        (loop_initial 0%Z)))))).
  { eexists. reflexivity. }
  split; [exact Hpub|].
  exact (X18_setpoint_needs_both_services enabling_run 0%Z 1 _ eq_refl Hpub).
Defined.

Lemma X19_first_five_seconds_are_quiet_witness :
  Forall (within_five_seconds 0%Z)
         [(disarmed, calls_succeed 1000000000%Z);
          (disarmed, calls_succeed 5000000000%Z)] /\
  Forall (fun out => arm_requested out = false /\
                     mode_requested out = false /\
                     setpoint out = None)
         (run [(disarmed, calls_succeed 1000000000%Z);
               (disarmed, calls_succeed 5000000000%Z)] (loop_initial 0%Z)).
Proof.
  assert (H : Forall (within_five_seconds 0%Z)
                [(disarmed, calls_succeed 1000000000%Z);
                 (disarmed, calls_succeed 5000000000%Z)]).
  { repeat constructor; simpl; unfold five_seconds; lia. }
  split; [exact H|].
  exact (X19_first_five_seconds_are_quiet _ 0%Z H).
Defined.
End OffboardWitnesses.
